(** * expressBookReviews: a shallow embedding of the book-review service

    The development follows the three modules of the application:
    - [booksdb.js]    the seeded catalog [books];
    - [auth_users.js] the user directory ([users], [isValid],
      [authenticatedUser]) and the routes mounted under [/customer];
    - [general.js]    the public routes;
    - [index.js]      the session gate [auth] and the mounting of the routers.

    Modelling conventions.
    - A JavaScript object used as a dictionary (the catalog, a review map, a
      request body, a query string) is a finite map over its own string keys.
      What the catalog and the review maps inherit from [Object.prototype] is
      modelled beside them: its members, and the [reviews] property that a
      review written at the id [__proto__] gives it ([Prototype]).
    - The enumeration of the catalog by [for ... in] is [own_entries], then
      [inherited_entry]: the own keys that are array indices in ascending
      order, then the other own keys, then what is inherited and enumerable.
    - Request bodies and query strings hold text: a field is a string or is
      missing.
    - A request has one of the four methods the routers register and a path
      given as the list of its segments, which the routers compare with the
      words of the source as they are written.
    - Requests are served one at a time: a handler runs to its response
      before the next request is looked at.
    - A string is a [string] whose characters stand for its code units.
    - [undefined] is [None]; the only values that reach a truthiness test are
      strings and [undefined], and a string is truthy when it is not empty.
    - The process state (catalog, user array, session store) is threaded
      explicitly: every handler maps a state to a new state and a response.
    - [Math.random] and the clock are read from an environment [Env]; a draw
      is a rational number, as every double is.
    - The built-ins [String.prototype.toLowerCase] and
      [String.prototype.localeCompare] are an interface, [StringBuiltins].
    - The fields [timestamp] and [operationDuration] of the response bodies
      carry wall-clock readings and are left out of the bodies. *)

From Stdlib Require Import String Ascii ZArith QArith List Bool.
From Stdlib Require Import Sorting.Sorted Sorting.Permutation.
From stdpp Require Import base gmap strings list.

Local Open Scope string_scope.
Local Open Scope Z_scope.

(** ** Language-level helpers *)

(** [!v] for a value that is a string or [undefined]. *)
Definition falsy (v : option string) : bool :=
  match v with
  | None => true
  | Some s => bool_decide (s = "")
  end.

Definition truthy (v : option string) : bool := negb (falsy v).

(** [s.includes(sub)]: [sub] occurs in [s] as a contiguous run of code units. *)
Fixpoint includes (s sub : string) : bool :=
  String.prefix sub s
  || match s with
     | EmptyString => false
     | String _ s' => includes s' sub
     end.

(** The string built-ins the search code calls. *)
Class StringBuiltins := {
  toLowerCase : string -> string;
  localeCompare : string -> string -> Z
}.


(** [xs.sort(cmp)]: a stable sort; [cmp a b > 0] puts [a] after [b]. *)
Fixpoint sort_insert {A : Type} (cmp : A -> A -> Z) (x : A) (l : list A) : list A :=
  match l with
  | [] => [x]
  | y :: l' => if cmp x y <=? 0 then x :: y :: l' else y :: sort_insert cmp x l'
  end.

Definition array_sort {A : Type} (cmp : A -> A -> Z) (l : list A) : list A :=
  foldr (sort_insert cmp) [] l.

(** [Math.random() > t]. *)
Definition exceeds (draw t : Q) : bool := negb (Qle_bool draw t).

(** The double-precision values of the literals [0.95], [0.97], [0.98] and
    [0.99]. *)
Definition d0_95 : Q := 4278419646001971 # 4503599627370496.
Definition d0_97 : Q := 4368491638549381 # 4503599627370496.
Definition d0_98 : Q := 2206763817411543 # 2251799813685248.
Definition d0_99 : Q := 4458563631096791 # 4503599627370496.

(** What a handler reads from outside the process state: the clock, in
    seconds, and the successive results of [Math.random()] during the
    request. *)
Record Env := {
  now : Z;
  random : nat -> Q
}.

(** ** jsonwebtoken

    A token is its payload together with the key it was signed with:
    [verify] accepts a token when that key is the one presented and the
    expiry lies in the future. *)
Module jwt.

Record Token := {
  data : string;
  iat : Z;
  exp : Z;
  key : string
}.

Definition sign (payload secret : string) (expiresIn : Z) (e : Env) : Token :=
  {| data := payload; iat := now e; exp := now e + expiresIn; key := secret |}.

Definition verify (token : Token) (secret : string) (e : Env) : option Token :=
  if bool_decide (key token = secret) && (now e <? exp token)
  then Some token
  else None.

End jwt.

(** ** Data model *)

(** A book of the catalog. Every book of [booksdb.js] carries a [reviews]
    object, and no code removes or replaces it. *)
Record Book := {
  author : string;
  title : string;
  reviews : gmap string string
}.

Record User := {
  username : string;
  password : string
}.

(** [req.session.authorization]. *)
Record Authorization := {
  accessToken : jwt.Token;
  auth_username : string
}.

(** What the handlers can hang on [Object.prototype] and its members:
    [proto_reviews] is the own property [reviews] of [Object.prototype], when
    it has one; [member_reviews] holds the own property [reviews] of each of
    its function members that has one. *)
Record Prototype := {
  proto_reviews : option (gmap string string);
  member_reviews : gmap string (gmap string string)
}.

Record State := {
  books : gmap string Book;
  users : list User;
  sessions : gmap string Authorization;
  prototype : Prototype
}.

Inductive Method := GET | POST | PUT | DELETE.

(** A request: the path is the list of its non-empty segments; [session_id]
    names the session the request's cookie selects. *)
Record Request := {
  method : Method;
  path : list string;
  body : gmap string string;
  query : gmap string string;
  session_id : string
}.

(** What a response shows for a [reviews] property: an object, or the text
    found in its place. *)
Inductive Shown :=
| shown_map (m : gmap string string)
| shown_text (s : string).

(** One element of a search result; a field that is [undefined] is left out
    of the JSON. *)
Record Hit := {
  hit_isbn : string;
  hit_title : option string;
  hit_author : option string;
  hit_reviews : Shown
}.

(** What [GET /isbn/:isbn] shows for the object found at the id: a book, the
    own entries of another object, [Object.prototype] with the [reviews] it
    may carry, or nothing for a function. *)
Inductive BookSent :=
| sent_book (b : Book)
| sent_map (m : gmap string string)
| sent_prototype (r : option (gmap string string))
| sent_nothing.

(** The JSON bodies the routes send, one constructor per shape. *)
Inductive Body :=
| Message (message : string)
| AllBooks (message method_ : string) (totalBooks : nat) (books_ : gmap string Book)
| OneBook (message method_ isbn : string) (book : BookSent)
| Missing (message method_ term : string)
| Found (message method_ term : string) (booksFound : nat) (books_ : list Hit)
| NoneFound (message method_ term : string) (booksFound : nat)
| Failure (message method_ : string) (term : option string) (error : string)
| Reviews (message : string) (bookTitle : option string) (reviews_ : Shown)
          (reviewCount : nat)
| Saved (message review user : string)
| Deleted (message user : string)
| NotFoundPage
| ErrorPage.

Record Response := {
  status : Z;
  json : Body
}.

Definition respond (code : Z) (b : Body) : Response := {| status := code; json := b |}.

(** How a promise settles. *)
Inductive Settled (A : Type) :=
| resolved (value : A)
| rejected (error : string).

Arguments resolved {A} value.
Arguments rejected {A} error.

(** ** booksdb.js *)

Definition seed (a t : string) : Book :=
  {| author := a; title := t; reviews := ∅ |}.

Definition seeded_books : gmap string Book :=
  list_to_map [
    ("1", seed "Chinua Achebe" "Things Fall Apart");
    ("2", seed "Hans Christian Andersen" "Fairy tales");
    ("3", seed "Dante Alighieri" "The Divine Comedy");
    ("4", seed "Unknown" "The Epic Of Gilgamesh");
    ("5", seed "Unknown" "The Book Of Job");
    ("6", seed "Unknown" "One Thousand and One Nights");
    ("7", seed "Unknown" ("Nj" ++ String "225" "l's Saga"));
    ("8", seed "Jane Austen" "Pride and Prejudice");
    ("9", seed ("Honor" ++ String "233" " de Balzac") ("Le P" ++ String "232" "re Goriot"));
    ("10", seed "Samuel Beckett" "Molloy, Malone Dies, The Unnamable, the trilogy")
  ].

(** [Object.prototype] as the process finds it. *)
Definition pristine : Prototype := {| proto_reviews := None; member_reviews := ∅ |}.

Definition initial_state : State :=
  {| books := seeded_books; users := []; sessions := ∅; prototype := pristine |}.

(** A route handler: it reads the environment, the state and the request,
    and yields the new state and the response it sends. *)
Definition Handler : Type := Env -> State -> Request -> State * Response.

Definition is_empty (s : string) : bool := bool_decide (s = "").

(** A template argument between double quotes. *)
Definition quoted (s : string) : string :=
  String "034" s ++ String "034" EmptyString.

Definition with_books (st : State) (bs : gmap string Book) : State :=
  {| books := bs; users := users st; sessions := sessions st;
     prototype := prototype st |}.

Definition with_users (st : State) (us : list User) : State :=
  {| books := books st; users := us; sessions := sessions st;
     prototype := prototype st |}.

Definition with_sessions (st : State) (ss : gmap string Authorization) : State :=
  {| books := books st; users := users st; sessions := ss;
     prototype := prototype st |}.

Definition with_prototype (st : State) (p : Prototype) : State :=
  {| books := books st; users := users st; sessions := sessions st;
     prototype := p |}.

(** [book.reviews = rs]. *)
Definition with_reviews (b : Book) (rs : gmap string string) : Book :=
  {| author := author b; title := title b; reviews := rs |}.

(** ** Property access

    The catalog [books], the [reviews] objects and [Object.prototype] are
    ordinary objects; a read that finds no own property goes on to
    [Object.prototype]. *)

(** The function members of [Object.prototype]. *)
Definition function_members : list string :=
  ["constructor"; "__defineGetter__"; "__defineSetter__"; "hasOwnProperty";
   "__lookupGetter__"; "__lookupSetter__"; "isPrototypeOf"; "propertyIsEnumerable";
   "toString"; "valueOf"; "toLocaleString"].

Definition is_function_member (k : string) : bool :=
  bool_decide (k ∈ function_members).

(** [Object.prototype] has an own property [reviews]. *)
Definition polluted (p : Prototype) : bool :=
  match proto_reviews p with
  | Some _ => true
  | None => false
  end.

(** [Object.prototype] provides a property [k] to the objects below it: the
    accessor [__proto__], a function member, or [reviews] once it has been
    created. Each of them is an object or a function, hence truthy. *)
Definition provides (p : Prototype) (k : string) : bool :=
  bool_decide (k = "__proto__") || is_function_member k
  || (bool_decide (k = "reviews") && polluted p).

(** [m[k] = v] for a string [v]: an own property is overwritten; without
    one, the key [__proto__] reaches the accessor of [Object.prototype], which
    ignores a string, and any other key becomes an own property. *)
Definition js_set (m : gmap string string) (k v : string) : gmap string string :=
  if bool_decide (k = "__proto__") && bool_decide (m !! k = None) then m
  else <[k := v]> m.

(** [m[k]] is truthy. *)
Definition entry_truthy (p : Prototype) (m : gmap string string) (k : string) : bool :=
  match m !! k with
  | Some s => negb (is_empty s)
  | None => provides p k
  end.

(** The object [books[isbn]] is: a book of the catalog, [Object.prototype]
    itself, one of its function members, or the object that
    [Object.prototype.reviews] holds. *)
Inductive Target :=
| own_book (b : Book)
| object_prototype
| member (k : string)
| shared_reviews (r0 : gmap string string).

(** [books[isbn]]; [None] is [undefined]. *)
Definition lookup_book (st : State) (isbn : string) : option Target :=
  match books st !! isbn with
  | Some b => Some (own_book b)
  | None =>
      if bool_decide (isbn = "__proto__") then Some object_prototype
      else if is_function_member isbn then Some (member isbn)
      else if bool_decide (isbn = "reviews")
           then shared_reviews <$> proto_reviews (prototype st)
           else None
  end.

(** Where a [reviews] object lives. *)
Inductive Place :=
| in_book (isbn : string)
| in_prototype
| in_member (k : string).

(** The value of [books[isbn].reviews]: [undefined], an object and where it
    lives, or a text (the own entry [reviews] of [Object.prototype.reviews],
    a review written by a user of that name). *)
Inductive Slot :=
| no_reviews
| reviews_at (where_ : Place) (m : gmap string string)
| reviews_text (s : string).

Definition reviews_slot (st : State) (isbn : string) (t : Target) : Slot :=
  let inherited :=
    match proto_reviews (prototype st) with
    | Some r0 => reviews_at in_prototype r0
    | None => no_reviews
    end in
  match t with
  | own_book b => reviews_at (in_book isbn) (reviews b)
  | object_prototype => inherited
  | member k =>
      match member_reviews (prototype st) !! k with
      | Some m => reviews_at (in_member k) m
      | None => inherited
      end
  | shared_reviews r0 =>
      match r0 !! "reviews" with
      | Some s => reviews_text s
      | None => reviews_at in_prototype r0
      end
  end.

(** The [reviews] object at a place becomes [m]. *)
Definition store (st : State) (w : Place) (m : gmap string string) : State :=
  match w with
  | in_book isbn =>
      match books st !! isbn with
      | Some b => with_books st (<[isbn := with_reviews b m]> (books st))
      | None => st
      end
  | in_prototype =>
      with_prototype st
        {| proto_reviews := Some m; member_reviews := member_reviews (prototype st) |}
  | in_member k =>
      with_prototype st
        {| proto_reviews := proto_reviews (prototype st);
           member_reviews := <[k := m]> (member_reviews (prototype st)) |}
  end.

(** The array index a property key denotes: the canonical decimal form of an
    integer below [2^32 - 1]. *)
Definition digit_value (c : ascii) : option N :=
  let n := N_of_ascii c in
  if ((48 <=? n) && (n <=? 57))%N then Some (n - 48)%N else None.

Fixpoint decimal (s : string) (acc : N) : option N :=
  match s with
  | EmptyString => Some acc
  | String c s' =>
      match digit_value c with
      | Some d => decimal s' (10 * acc + d)%N
      | None => None
      end
  end.

Definition array_index (k : string) : option N :=
  match k with
  | EmptyString => None
  | String c rest =>
      if bool_decide (c = "0"%char) && negb (is_empty rest) then None
      else match decimal k 0 with
           | Some n => if (n <? 4294967295)%N then Some n else None
           | None => None
           end
  end.

(** The names of the members of [String.prototype] (Node 22), which a read
    on a text reaches before [Object.prototype]. *)
Definition string_members : list string :=
  ["constructor"; "anchor"; "at"; "big"; "blink"; "bold"; "charAt"; "charCodeAt";
   "codePointAt"; "concat"; "endsWith"; "fontcolor"; "fontsize"; "fixed"; "includes";
   "indexOf"; "isWellFormed"; "italics"; "lastIndexOf"; "link"; "localeCompare";
   "match"; "matchAll"; "normalize"; "padEnd"; "padStart"; "repeat"; "replace";
   "replaceAll"; "search"; "slice"; "small"; "split"; "strike"; "sub"; "substr";
   "substring"; "sup"; "startsWith"; "toString"; "toWellFormed"; "trim"; "trimStart";
   "trimLeft"; "trimEnd"; "trimRight"; "toLocaleLowerCase"; "toLocaleUpperCase";
   "toLowerCase"; "toUpperCase"; "valueOf"].

(** [s[k]] is truthy, for a non-empty text [s]: its length, one of its
    characters, a member of [String.prototype], or what [Object.prototype]
    provides. *)
Definition text_entry_truthy (p : Prototype) (s k : string) : bool :=
  bool_decide (k = "length")
  || match array_index k with
     | Some i => (i <? N.of_nat (String.length s))%N
     | None => false
     end
  || bool_decide (k ∈ string_members)
  || provides p k.

(** ** auth_users.js *)
Module auth_users.

Definition isValid (us : list User) (name : string) : bool :=
  let userswithsamename := filter (fun user => username user = name) us in
  (0 <? length userswithsamename)%nat.

Definition authenticatedUser (us : list User) (name pw : string) : bool :=
  let validusers :=
    filter (fun user => username user = name /\ password user = pw) us in
  (0 <? length validusers)%nat.

(** [POST /login]. *)
Definition login : Handler := fun e st req =>
  let required := respond 400 (Message "Username and password are required") in
  match body req !! "username", body req !! "password" with
  | Some name, Some pw =>
      if is_empty name || is_empty pw then (st, required)
      else if authenticatedUser (users st) name pw then
        let token := jwt.sign name "access" (60 * 60) e in
        let authorization := {| accessToken := token; auth_username := name |} in
        (with_sessions st (<[session_id req := authorization]> (sessions st)),
         respond 200 (Message "User successfully logged in"))
      else
        (st, respond 404 (Message "Invalid Login. Check username and password"))
  | _, _ => (st, required)
  end.

(** Reading [req.session.authorization.username] when the session holds no
[authorization] throws; the framework answers 500 with its error page. *)
Definition uncaught (st : State) : State * Response := (st, respond 500 ErrorPage).

(** [if (!books[isbn].reviews) books[isbn].reviews = {}], then the value of
    [books[isbn].reviews]: an object without [reviews] of its own or by
    inheritance gets an empty one. A text is kept as it is (a text is never
    empty in a state the handlers produce, since [putReview] refuses an empty
    review). *)
Definition ensure_reviews (st : State) (isbn : string) (t : Target) : State * Slot :=
  match reviews_slot st isbn t with
  | no_reviews =>
      match t with
      | member k => (store st (in_member k) ∅, reviews_at (in_member k) ∅)
      | _ => (store st in_prototype ∅, reviews_at in_prototype ∅)
      end
  | slot => (st, slot)
  end.

(** [books[isbn].reviews[username] = review]; an assignment to a property of
    a text is ignored. *)
Definition write_review (st : State) (slot : Slot) (user review : string) : State :=
  match slot with
  | reviews_at w m => store st w (js_set m user review)
  | reviews_text _ => st
  | no_reviews => st
  end.

(** [PUT /auth/review/:isbn]. *)
Definition putReview (isbn : string) : Handler := fun e st req =>
  match sessions st !! session_id req with
  | None => uncaught st
  | Some authorization =>
      let user := auth_username authorization in
      match query req !! "review" with
      | Some review =>
          if is_empty review then
            (st, respond 400 (Message "Review content is required"))
          else
            match lookup_book st isbn with
            | Some t =>
                let (st1, slot) := ensure_reviews st isbn t in
                (write_review st1 slot user review,
                 respond 200
                   (Saved ("Review for book with ISBN " ++ isbn
                             ++ " has been added/modified successfully")
                          review user))
            | None => (st, respond 400 (Message "Book not found"))
            end
      | None => (st, respond 400 (Message "Review content is required"))
      end
  end.

(** [books[isbn].reviews && books[isbn].reviews[username]]. *)
Definition has_review (p : Prototype) (slot : Slot) (user : string) : bool :=
  match slot with
  | reviews_at _ m => entry_truthy p m user
  | reviews_text s => negb (is_empty s) && text_entry_truthy p s user
  | no_reviews => false
  end.

(** [delete books[isbn].reviews[username]]: an own entry is removed, and
    nothing else is. *)
Definition remove_review (st : State) (slot : Slot) (user : string) : State :=
  match slot with
  | reviews_at w m => store st w (delete user m)
  | reviews_text _ => st
  | no_reviews => st
  end.

(** [DELETE /auth/review/:isbn]. *)
Definition deleteReview (isbn : string) : Handler := fun e st req =>
  match sessions st !! session_id req with
  | None => uncaught st
  | Some authorization =>
      let user := auth_username authorization in
      match lookup_book st isbn with
      | Some t =>
          let slot := reviews_slot st isbn t in
          if has_review (prototype st) slot user then
            (remove_review st slot user,
             respond 200
               (Deleted ("Review for book with ISBN " ++ isbn
                           ++ " has been deleted successfully")
                        user))
          else (st, respond 404 (Message "Review not found for this user"))
      | None => (st, respond 404 (Message "Book not found"))
      end
  end.

(** The router [regd_users], as a table from method and path to handler. *)
Definition regd_users (m : Method) (p : list string) : option Handler :=
  match m, p with
  | POST, ["login"] => Some login
  | PUT, ["auth"; "review"; isbn] => Some (putReview isbn)
  | DELETE, ["auth"; "review"; isbn] => Some (deleteReview isbn)
  | _, _ => None
  end.

End auth_users.

(** ** general.js *)
Module general.
Import auth_users.

(** [POST /register]. *)
Definition register : Handler := fun e st req =>
  let required := respond 400 (Message "Username and password are required") in
  match body req !! "username", body req !! "password" with
  | Some name, Some pw =>
      if is_empty name || is_empty pw then (st, required)
      else if isValid (users st) name then
        (st, respond 409
               (Message "Username already exists. Please choose a different username."))
      else
        (with_users st (users st ++ [{| username := name; password := pw |}]),
         respond 200 (Message "User registered successfully. You can now login."))
  | _, _ => (st, required)
  end.

Definition getBooksAsync (e : Env) (bs : gmap string Book) : Settled (gmap string Book) :=
  if exceeds (random e 0) d0_95
  then rejected "Simulated database connection error"
  else resolved bs.

(** [GET /]. *)
Definition listAll : Handler := fun e st req =>
  match getBooksAsync e (books st) with
  | resolved booksData =>
      (st, respond 200
             (AllBooks "Books retrieved successfully using Async/Await" "async-await"
                       (size booksData) booksData))
  | rejected error =>
      (st, respond 500
             (Failure "Error retrieving books using Async/Await" "async-await"
                      None error))
  end.

(** What [res.json] shows of the object found at an id. *)
Definition sent (p : Prototype) (t : Target) : BookSent :=
  match t with
  | own_book b => sent_book b
  | object_prototype => sent_prototype (proto_reviews p)
  | member _ => sent_nothing
  | shared_reviews r0 => sent_map r0
  end.

Definition getBookByIsbnPromise (e : Env) (st : State) (bookIsbn : string)
  : Settled (option Target) :=
  if exceeds (random e 0) d0_98
  then rejected "Simulated network timeout"
  else resolved (lookup_book st bookIsbn).

(** [GET /isbn/:isbn]. *)
Definition getByIsbn (isbn : string) : Handler := fun e st req =>
  let method_ := "promise-callbacks" in
  match getBookByIsbnPromise e st isbn with
  | resolved (Some book) =>
      (st, respond 200
             (OneBook ("Book with ISBN " ++ isbn
                         ++ " retrieved successfully using Promise Callbacks")
                      method_ isbn (sent (prototype st) book)))
  | resolved None =>
      (st, respond 404
             (Missing ("Book with ISBN " ++ isbn ++ " not found using Promise Callbacks")
                      method_ isbn))
  | rejected error =>
      (st, respond 500
             (Failure ("Error retrieving book with ISBN " ++ isbn
                         ++ " using Promise Callbacks")
                      method_ (Some isbn) error))
  end.

Definition hit (entry : string * Book) : Hit :=
  {| hit_isbn := entry.1; hit_title := Some (title entry.2);
     hit_author := Some (author entry.2); hit_reviews := shown_map (reviews entry.2) |}.

(** The own entries of an object in the order of enumeration: the keys that
    are array indices in ascending order, then the other keys. (The other
    keys come in the order of their creation, which the map does not record;
    the catalog of [booksdb.js] has array indices only.) *)
Definition own_entries {A : Type} (m : gmap string A) : list (string * A) :=
  let entries := map_to_list m in
  let indexed :=
    omap (fun entry => (fun n => (n, entry)) <$> array_index entry.1) entries in
  let named :=
    List.filter (fun entry => negb (bool_decide (is_Some (array_index entry.1))))
                entries in
  ((snd <$> array_sort (fun x y => Z.of_N x.1 - Z.of_N y.1)%Z indexed) ++ named)%list.

(** What [for (const isbn in books)] visits after the own entries: the key
    [reviews] when [Object.prototype] carries it and the catalog has no entry
    of that name. The loop then reads [Object.prototype.reviews] as a book. *)
Definition inherited_entry (st : State) : option (gmap string string) :=
  match books st !! "reviews" with
  | Some _ => None
  | None => proto_reviews (prototype st)
  end.

Definition shared_hit (r0 : gmap string string) : Hit :=
  {| hit_isbn := "reviews"; hit_title := r0 !! "title"; hit_author := r0 !! "author";
     hit_reviews := match r0 !! "reviews" with
                    | Some s => shown_text s
                    | None => shown_map r0
                    end |}.

(** The message of the [TypeError] of a method call on [undefined]. *)
Definition type_error (method_ : string) : string :=
  "Cannot read properties of undefined (reading '" ++ method_ ++ "')".

Record AuthorSearch := {
  search_books : list Hit;
  searchTerm : string;
  totalChecked : nat
}.

Section Search.
Context `{StringBuiltins}.

(** [matchingBooks.sort((a, b) => a.key.localeCompare(b.key))] for arrays of
    one run (at most 64 elements): every element but the first is the
    receiver of a comparison, which throws when its key is [undefined]; a
    key that is [undefined] as the argument reads as the text "undefined". *)
Definition sort_hits (key : Hit -> option string) (l : list Hit) : Settled (list Hit) :=
  if existsb (fun h => negb (bool_decide (is_Some (key h)))) (tail l)
  then rejected (type_error "localeCompare")
  else resolved
         (array_sort (fun a b => localeCompare (default "undefined" (key a))
                                               (default "undefined" (key b)))
                     l).

(** The own entries of the catalog whose author matches, in enumeration
    order. *)
Definition author_matches (bs : gmap string Book) (searchAuthor : string) : list Hit :=
  hit <$> List.filter
            (fun entry => includes (toLowerCase (author entry.2)) searchAuthor)
            (own_entries bs).

(** The loop [for (const isbn in books)] of the author search. *)
Definition author_loop (st : State) (searchAuthor : string) : Settled (list Hit) :=
  let matchingBooks := author_matches (books st) searchAuthor in
  match inherited_entry st with
  | None => resolved matchingBooks
  | Some r0 =>
      match r0 !! "author" with
      | Some a =>
          resolved (if includes (toLowerCase a) searchAuthor
                    then (matchingBooks ++ [shared_hit r0])%list
                    else matchingBooks)
      | None => rejected (type_error "toLowerCase")
      end
  end.

Definition performAuthorSearch (e : Env) (st : State) (authorName : string)
  : Settled AuthorSearch :=
  if exceeds (random e 0) d0_97
  then rejected "Simulated database connection timeout"
  else
    let searchAuthor := toLowerCase authorName in
    match author_loop st searchAuthor with
    | resolved matchingBooks =>
        match sort_hits hit_title matchingBooks with
        | resolved sorted =>
            resolved {| search_books := sorted;
                        searchTerm := authorName;
                        totalChecked := size (books st) |}
        | rejected error => rejected error
        end
    | rejected error => rejected error
    end.

(** [GET /author/:author]. *)
Definition searchByAuthor (name : string) : Handler := fun e st req =>
  let method_ := "async-await" in
  match performAuthorSearch e st name with
  | resolved searchResult =>
      if (0 <? length (search_books searchResult))%nat then
        (st, respond 200
               (Found ("Books by author " ++ quoted name
                         ++ " retrieved successfully using Async/Await")
                      method_ name (length (search_books searchResult))
                      (search_books searchResult)))
      else
        (st, respond 404
               (NoneFound ("No books found by author " ++ quoted name ++ " using Async/Await")
                          method_ name 0))
  | rejected error =>
      (st, respond 500
             (Failure ("Error searching for books by author " ++ quoted name
                         ++ " using Async/Await")
                      method_ (Some name) error))
  end.

Definition title_matches (bs : gmap string Book) (searchTitle : string) : list Hit :=
  hit <$> List.filter
            (fun entry => includes (toLowerCase (title entry.2)) searchTitle)
            (own_entries bs).

(** The loop [for (const isbn in books)] of the title search. *)
Definition title_loop (st : State) (searchTitle : string) : Settled (list Hit) :=
  let matchingBooks := title_matches (books st) searchTitle in
  match inherited_entry st with
  | None => resolved matchingBooks
  | Some r0 =>
      match r0 !! "title" with
      | Some t =>
          resolved (if includes (toLowerCase t) searchTitle
                    then (matchingBooks ++ [shared_hit r0])%list
                    else matchingBooks)
      | None => rejected (type_error "toLowerCase")
      end
  end.

(** The chain [initiateSearch], [performTitleSearch], [processResults];
    the second draw of the request names the search. *)
Definition titleSearch (e : Env) (st : State) (name : string) : Settled (list Hit) :=
  if exceeds (random e 0) d0_98 then rejected "Search initialization failed"
  else if exceeds (random e 2) d0_97
  then rejected "Database connection timeout during search"
  else
    match title_loop st (toLowerCase name) with
    | resolved matchingBooks =>
        if exceeds (random e 3) d0_99 then rejected "Result processing failed"
        else sort_hits hit_author matchingBooks
    | rejected error => rejected error
    end.

(** [GET /title/:title]. *)
Definition searchByTitle (name : string) : Handler := fun e st req =>
  let method_ := "promise-chaining" in
  match titleSearch e st name with
  | resolved found =>
      if (0 <? length found)%nat then
        (st, respond 200
               (Found ("Books with title " ++ quoted name
                         ++ " retrieved successfully using Promise Chaining")
                      method_ name (length found) found))
      else
        (st, respond 404
               (NoneFound ("No books found with title " ++ quoted name
                             ++ " using Promise Chaining")
                          method_ name 0))
  | rejected error =>
      (st, respond 500
             (Failure ("Error searching for books with title " ++ quoted name
                         ++ " using Promise Chaining")
                      method_ (Some name) error))
  end.

End Search.

(** [books[isbn].title]. *)
Definition title_of (t : Target) : option string :=
  match t with
  | own_book b => Some (title b)
  | shared_reviews r0 => r0 !! "title"
  | object_prototype => None
  | member _ => None
  end.

(** [GET /review/:isbn]. *)
Definition getReviews (isbn : string) : Handler := fun e st req =>
  match lookup_book st isbn with
  | Some t =>
      let none_found :=
        respond 200
          (Reviews ("No reviews found for book with ISBN " ++ isbn)
                   (title_of t) (shown_map ∅) 0) in
      let found (shown : Shown) (count : nat) :=
        respond 200
          (Reviews ("Reviews for book with ISBN " ++ isbn ++ " retrieved successfully")
                   (title_of t) shown count) in
      match reviews_slot st isbn t with
      | reviews_at _ rs =>
          if (0 <? size rs)%nat then (st, found (shown_map rs) (size rs))
          else (st, none_found)
      | reviews_text s =>
          if (0 <? String.length s)%nat then (st, found (shown_text s) (String.length s))
          else (st, none_found)
      | no_reviews => (st, none_found)
      end
  | None => (st, respond 404 (Message ("Book with ISBN " ++ isbn ++ " not found")))
  end.

(** The router [public_users]. *)
Definition public_users `{StringBuiltins} (m : Method) (p : list string)
  : option Handler :=
  match m, p with
  | POST, ["register"] => Some register
  | GET, [] => Some listAll
  | GET, ["isbn"; isbn] => Some (getByIsbn isbn)
  | GET, ["author"; name] => Some (searchByAuthor name)
  | GET, ["title"; name] => Some (searchByTitle name)
  | GET, ["review"; isbn] => Some (getReviews isbn)
  | _, _ => None
  end.

End general.

(** ** index.js *)
Module index.
Import auth_users general.

(** The middleware mounted on [/customer/auth/*]; [next] is what the rest
    of the stack does with the request. *)
Definition auth (e : Env) (st : State) (req : Request) (next : State * Response)
  : State * Response :=
  match sessions st !! session_id req with
  | Some authorization =>
      let token := accessToken authorization in
      match jwt.verify token "access" e with
      | Some user => next
      | None => (st, respond 403 (Message "User not authenticated"))
      end
  | None => (st, respond 403 (Message "User not logged in"))
  end.

(** The mount path [/customer/auth/*]. *)
Definition under_auth (p : list string) : bool :=
  match p with
  | "customer" :: "auth" :: _ :: _ => true
  | _ => false
  end.

Section App.
Context `{StringBuiltins}.

(** [app.use("/customer", customer_routes); app.use("/", genl_routes)]:
    a request no route takes gets the framework's 404. *)
Definition routes : Handler := fun e st req =>
  let genl_routes :=
    match public_users (method req) (path req) with
    | Some handler => handler e st req
    | None => (st, respond 404 NotFoundPage)
    end in
  match path req with
  | "customer" :: rest =>
      match regd_users (method req) rest with
      | Some handler => handler e st req
      | None => genl_routes
      end
  | _ => genl_routes
  end.

Definition app : Handler := fun e st req =>
  if under_auth (path req) then auth e st req (routes e st req)
  else routes e st req.

(** The server over a run of requests, each with its environment. *)
Fixpoint serve (st : State) (rs : list (Env * Request)) : State :=
  match rs with
  | [] => st
  | (e, req) :: rs' => serve (app e st req).1 rs'
  end.

End App.

End index.

(** ** An instance of the string built-ins for strings of Latin-1 code units

    [toLowerCase] is the Unicode lower-casing restricted to code units below
    256; the comparator orders strings by code units and stands in for the
    collation of the host when the model is run. *)
Module Latin1.

Definition lower (c : ascii) : ascii :=
  let n := N_of_ascii c in
  if ((65 <=? n) && (n <=? 90))%N then ascii_of_N (n + 32)
  else if ((192 <=? n) && (n <=? 222) && negb (n =? 215))%N then ascii_of_N (n + 32)
  else c.

Fixpoint lowercase (s : string) : string :=
  match s with
  | EmptyString => EmptyString
  | String c s' => String (lower c) (lowercase s')
  end.

Definition by_code_units (a b : string) : Z :=
  match String.compare a b with
  | Lt => -1
  | Eq => 0
  | Gt => 1
  end.

#[export] Instance builtins : StringBuiltins :=
  {| toLowerCase := lowercase; localeCompare := by_code_units |}.

End Latin1.

(** ** Concrete inputs used to run the model *)
Module Sample.

(** An environment whose every draw is [draw]. *)
Definition env (draw : Q) : Env := {| now := 1000; random := fun _ => draw |}.

Definition fields (l : list (string * string)) : gmap string string := list_to_map l.

Definition request (m : Method) (p : list string) (b q : list (string * string))
  : Request :=
  {| method := m; path := p; body := fields b; query := fields q;
     session_id := "sid-1" |}.

Definition alice : User := {| username := "alice"; password := "pw1" |}.

(** The seeded catalog with [alice] registered and nobody logged in. *)
Definition registered : State :=
  {| books := seeded_books; users := [alice]; sessions := ∅; prototype := pristine |}.

Definition alice_session : Authorization :=
  {| accessToken := jwt.sign "alice" "access" 3600 (env (1 # 2));
     auth_username := "alice" |}.

(** The same with [alice] logged in on the session of [request]. *)
Definition logged_in : State :=
  {| books := seeded_books; users := [alice];
     sessions := {[ "sid-1" := alice_session ]}; prototype := pristine |}.

Definition register_alice (pw : string) : Request :=
  request POST ["register"] [("username", "alice"); ("password", pw)] [].

Definition login_alice : Request :=
  request POST ["customer"; "login"] [("username", "alice"); ("password", "pw1")] [].

End Sample.

(** ** Shapes of requests *)

Definition is_login (req : Request) : Prop :=
  method req = POST /\ path req = ["customer"; "login"].

(** The two review-mutation routes, [PUT] and [DELETE] on
    [/customer/auth/review/:isbn]. *)
Definition is_review_mutation (req : Request) : Prop :=
  (method req = PUT \/ method req = DELETE) /\
  exists isbn, path req = ["customer"; "auth"; "review"; isbn].

Definition not_logged_in : Response := respond 403 (Message "User not logged in").

(** The two replies of [deleteReview] that report something missing. *)
Definition book_not_found : Response := respond 404 (Message "Book not found").

Definition review_not_found : Response :=
  respond 404 (Message "Review not found for this user").

(** The book carries no review written by [user]. *)
Definition no_review_by (b : Book) (user : string) : Prop :=
  reviews b !! user = None.

(** The review map of a book. *)
Definition reviews_of (b : Book) : gmap string string := reviews b.

(** The mapping a reviews response carries. *)
Definition reviews_sent (r : Response) : option (gmap string string) :=
  match json r with
  | Reviews _ _ (shown_map rs) _ => Some rs
  | _ => None
  end.

Definition review_required : Response :=
  respond 400 (Message "Review content is required").

Definition saved (isbn review user : string) : Response :=
  respond 200
    (Saved ("Review for book with ISBN " ++ isbn ++ " has been added/modified successfully")
           review user).

(** ** Vocabulary of the author search *)

(** The author of [b] contains [s] as a substring once both are put in
    lower case. *)
Definition author_contains `{StringBuiltins} (s : string) (b : Book) : Prop :=
  includes (toLowerCase (author b)) (toLowerCase s) = true.




(** No review was written at the id [__proto__]: [Object.prototype] has no
    [reviews]. *)
Definition unpolluted (st : State) : Prop := proto_reviews (prototype st) = None.

(** The statuses the server answers along a run of requests. *)
Fixpoint statuses `{StringBuiltins} (st : State) (rs : list (Env * Request)) : list Z :=
  match rs with
  | [] => []
  | (e, req) :: rs' => status (index.app e st req).2 :: statuses (index.app e st req).1 rs'
  end.

(** ** Vocabulary of the user directory *)

(** The user array of [st'] is that of [st] with users pushed at its end. *)
Definition users_pushed (st st' : State) : Prop :=
  exists more : list User, users st' = (users st ++ more)%list.

Definition required_reply : Response :=
  respond 400 (Message "Username and password are required").

Definition duplicate_reply : Response :=
  respond 409 (Message "Username already exists. Please choose a different username.").

(** The ways a registration fails: a missing or empty field, or a name that
    is already in the directory. *)
Definition register_fails (st : State) (req : Request) : Prop :=
  falsy (body req !! "username") = true \/ falsy (body req !! "password") = true \/
  exists u, body req !! "username" = Some u /\ auth_users.isValid (users st) u = true.

(** ** Vocabulary of the invariants *)

(** No two users of the directory have the same name. *)
Definition unique_usernames (st : State) : Prop :=
  NoDup (username <$> users st).

(** Every stored credential is that of a user of the directory: its token
    carries the user's name and was signed with the key of the service. *)
Definition sessions_registered (st : State) : Prop :=
  forall sid a, sessions st !! sid = Some a ->
    auth_users.isValid (users st) (auth_username a) = true /\
    jwt.data (accessToken a) = auth_username a /\
    jwt.key (accessToken a) = "access".

(** The two catalogs have the same ids, and the same author and title at
    each id. *)
Definition same_catalog (bs bs' : gmap string Book) : Prop :=
  forall isbn,
    match bs !! isbn, bs' !! isbn with
    | Some b, Some b' => author b' = author b /\ title b' = title b
    | None, None => True
    | _, _ => False
    end.

(** The login of [name] with [pw] from the session of [Sample.request]. *)
Definition login_as (name pw : string) : Request :=
  Sample.request POST ["customer"; "login"] [("username", name); ("password", pw)] [].

Definition not_authenticated : Response :=
  respond 403 (Message "User not authenticated").

Definition deleted (isbn user : string) : Response :=
  respond 200
    (Deleted ("Review for book with ISBN " ++ isbn ++ " has been deleted successfully")
             user).

(** The status of each settlement of a search, as the search routes answer. *)
Definition search_status {A : Type} (r : Settled (list A)) : Z :=
  match r with
  | resolved [] => 404
  | resolved (_ :: _) => 200
  | rejected _ => 500
  end.

(** The books a found-response lists. *)
Definition books_sent (r : Response) : option (list Hit) :=
  match json r with
  | Found _ _ _ _ hits => Some hits
  | _ => None
  end.

(** The title of [b] contains [s] once both are put in lower case. *)
Definition title_contains `{StringBuiltins} (s : string) (b : Book) : Prop :=
  includes (toLowerCase (title b)) (toLowerCase s) = true.


(** ** Inputs that reach what [Object.prototype] provides *)

(** A user who registered under the name [__proto__]. *)
Definition proto_user : User := {| username := "__proto__"; password := "pw" |}.

(** The registration and the login of that user, on the session of
    [Sample.request]. *)
Definition proto_user_arrives : list (Env * Request) :=
  [ (Sample.env (1 # 2),
     Sample.request POST ["register"] [("username", "__proto__"); ("password", "pw")] []);
    (Sample.env (1 # 2), login_as "__proto__" "pw") ].

Definition put_review (isbn text : string) : Request :=
  Sample.request PUT ["customer"; "auth"; "review"; isbn] [] [("review", text)].

Definition get_reviews (isbn : string) : Request :=
  Sample.request GET ["review"; isbn] [] [].


(** * Properties *)

Import auth_users general index.

(** ** The user directory *)

Lemma isValid_spec (us : list User) (name : string) :
  isValid us name = true <-> exists user, user ∈ us /\ username user = name.
Proof.
  unfold isValid. rewrite Nat.ltb_lt. split.
  - intros Hlen.
    destruct (filter (fun user => username user = name) us) as [|user l] eqn:Hf;
      [simpl in Hlen; lia|].
    assert (Hin : user ∈ filter (fun user => username user = name) us)
      by (rewrite Hf; left).
    apply list_elem_of_filter in Hin. exists user. tauto.
  - intros (user & Hin & Hname).
    assert (Hf : user ∈ filter (fun user => username user = name) us)
      by (apply list_elem_of_filter; auto).
    destruct (filter (fun user => username user = name) us); [inversion Hf|].
    simpl. lia.
Qed.

Lemma isValid_push (us : list User) (name pw : string) :
  isValid (us ++ [{| username := name; password := pw |}]) name = true.
Proof.
  apply isValid_spec. exists {| username := name; password := pw |}.
  split; [|reflexivity]. apply elem_of_app. right. left.
Qed.

Lemma isValid_grows (us more : list User) (name : string) :
  isValid us name = true -> isValid (us ++ more) name = true.
Proof.
  rewrite !isValid_spec. intros (user & Hin & Hname).
  exists user. split; [apply elem_of_app; left|]; done.
Qed.

(** ** What the routers hold *)

Lemma regd_users_cases (m : Method) (p : list string) (h : Handler) :
  regd_users m p = Some h ->
  (m = POST /\ p = ["login"] /\ h = login) \/
  (exists isbn, m = PUT /\ p = ["auth"; "review"; isbn] /\ h = putReview isbn) \/
  (exists isbn, m = DELETE /\ p = ["auth"; "review"; isbn] /\ h = deleteReview isbn).
Proof.
  unfold regd_users. intros Hr.
  repeat case_match; simplify_eq; eauto 10.
Qed.

Lemma public_users_cases `{StringBuiltins} (m : Method) (p : list string) (h : Handler) :
  public_users m p = Some h ->
  h = register \/ h = listAll \/
  (exists isbn, h = getByIsbn isbn) \/ (exists name, h = searchByAuthor name) \/
  (exists name, h = searchByTitle name) \/ (exists isbn, h = getReviews isbn).
Proof.
  unfold public_users. intros Hr.
  repeat case_match; simplify_eq; eauto 10.
Qed.

(** ** The user array only grows *)

Lemma users_pushed_refl (st : State) : users_pushed st st.
Proof. exists []. by rewrite app_nil_r. Qed.

Lemma users_pushed_trans (st1 st2 st3 : State) :
  users_pushed st1 st2 -> users_pushed st2 st3 -> users_pushed st1 st3.
Proof.
  intros [m1 H1] [m2 H2]. exists (m1 ++ m2)%list. by rewrite H2, H1, app_assoc.
Qed.

Lemma users_pushed_same (st st' : State) : users st' = users st -> users_pushed st st'.
Proof. intros Hu. exists []. by rewrite Hu, app_nil_r. Qed.

Create HintDb handlers.
#[local] Hint Resolve users_pushed_refl users_pushed_same : handlers.

Ltac handler_cases :=
  repeat case_match; simpl; auto with handlers.

Lemma login_users e st req : users_pushed st (login e st req).1.
Proof. unfold login. handler_cases. Qed.

Lemma store_users st w m : users (store st w m) = users st.
Proof. unfold store. repeat case_match; reflexivity. Qed.

Lemma store_sessions st w m : sessions (store st w m) = sessions st.
Proof. unfold store. repeat case_match; reflexivity. Qed.

Lemma ensure_reviews_users st isbn t : users (ensure_reviews st isbn t).1 = users st.
Proof. unfold ensure_reviews. repeat case_match; simpl; auto using store_users. Qed.

Lemma ensure_reviews_sessions st isbn t :
  sessions (ensure_reviews st isbn t).1 = sessions st.
Proof. unfold ensure_reviews. repeat case_match; simpl; auto using store_sessions. Qed.

Lemma write_review_users st slot user review :
  users (write_review st slot user review) = users st.
Proof. destruct slot; simpl; auto using store_users. Qed.

Lemma write_review_sessions st slot user review :
  sessions (write_review st slot user review) = sessions st.
Proof. destruct slot; simpl; auto using store_sessions. Qed.

Lemma remove_review_users st slot user : users (remove_review st slot user) = users st.
Proof. destruct slot; simpl; auto using store_users. Qed.

Lemma remove_review_sessions st slot user :
  sessions (remove_review st slot user) = sessions st.
Proof. destruct slot; simpl; auto using store_sessions. Qed.

Lemma putReview_state isbn e st req :
  (putReview isbn e st req).1 = st \/
  exists a t review,
    sessions st !! session_id req = Some a /\ lookup_book st isbn = Some t /\
    query req !! "review" = Some review /\ review <> "" /\
    putReview isbn e st req
    = (write_review (ensure_reviews st isbn t).1 (ensure_reviews st isbn t).2
                    (auth_username a) review,
       saved isbn review (auth_username a)).
Proof.
  unfold putReview, uncaught.
  destruct (sessions st !! session_id req) as [a|]; [|by left].
  destruct (query req !! "review") as [review|]; [|by left].
  unfold is_empty. destruct (bool_decide_reflect (review = "")) as [|Hne]; [by left|].
  destruct (lookup_book st isbn) as [t|]; [|by left].
  right. exists a, t, review. repeat (split; [done|]).
  by destruct (ensure_reviews st isbn t).
Qed.

Lemma putReview_users_eq isbn e st req : users (putReview isbn e st req).1 = users st.
Proof.
  destruct (putReview_state isbn e st req) as [->|(a & t & r & _ & _ & _ & _ & ->)];
    [done|].
  simpl. by rewrite write_review_users, ensure_reviews_users.
Qed.

Lemma putReview_sessions_eq isbn e st req :
  sessions (putReview isbn e st req).1 = sessions st.
Proof.
  destruct (putReview_state isbn e st req) as [->|(a & t & r & _ & _ & _ & _ & ->)];
    [done|].
  simpl. by rewrite write_review_sessions, ensure_reviews_sessions.
Qed.

Lemma deleteReview_users_eq isbn e st req : users (deleteReview isbn e st req).1 = users st.
Proof.
  unfold deleteReview, uncaught. repeat case_match; simpl; auto using remove_review_users.
Qed.

Lemma deleteReview_sessions_eq isbn e st req :
  sessions (deleteReview isbn e st req).1 = sessions st.
Proof.
  unfold deleteReview, uncaught.
  repeat case_match; simpl; auto using remove_review_sessions.
Qed.

Lemma putReview_users isbn e st req : users_pushed st (putReview isbn e st req).1.
Proof. apply users_pushed_same, putReview_users_eq. Qed.

Lemma deleteReview_users isbn e st req : users_pushed st (deleteReview isbn e st req).1.
Proof. apply users_pushed_same, deleteReview_users_eq. Qed.

Lemma register_users e st req : users_pushed st (register e st req).1.
Proof. unfold register. handler_cases. unfold users_pushed. simpl. eauto. Qed.

Lemma listAll_state e st req : (listAll e st req).1 = st.
Proof. unfold listAll. handler_cases. Qed.

Lemma getByIsbn_state isbn e st req : (getByIsbn isbn e st req).1 = st.
Proof. unfold getByIsbn. handler_cases. Qed.

Lemma searchByAuthor_state `{StringBuiltins} name e st req :
  (searchByAuthor name e st req).1 = st.
Proof. unfold searchByAuthor. handler_cases. Qed.

Lemma searchByTitle_state `{StringBuiltins} name e st req :
  (searchByTitle name e st req).1 = st.
Proof. unfold searchByTitle. handler_cases. Qed.

Lemma getReviews_state isbn e st req : (getReviews isbn e st req).1 = st.
Proof. unfold getReviews. handler_cases. Qed.

Lemma routes_users `{StringBuiltins} e st req : users_pushed st (routes e st req).1.
Proof.
  assert (Hpublic : users_pushed st
            (match public_users (method req) (path req) with
             | Some handler => handler e st req
             | None => (st, respond 404 NotFoundPage)
             end).1).
  { destruct (public_users (method req) (path req)) as [h|] eqn:Hh;
      [|apply users_pushed_refl].
    apply public_users_cases in Hh.
    destruct Hh as [->|[->|[[i ->]|[[a ->]|[[t ->]|[i ->]]]]]].
    - apply register_users.
    - rewrite listAll_state. apply users_pushed_refl.
    - rewrite getByIsbn_state. apply users_pushed_refl.
    - rewrite searchByAuthor_state. apply users_pushed_refl.
    - rewrite searchByTitle_state. apply users_pushed_refl.
    - rewrite getReviews_state. apply users_pushed_refl. }
  unfold routes. destruct (path req) as [|seg rest]; [exact Hpublic|].
  destruct (String.eqb_spec seg "customer") as [->|Hne].
  - destruct (regd_users (method req) rest) as [h|] eqn:Hh; [|exact Hpublic].
    apply regd_users_cases in Hh.
    destruct Hh as [(_ & _ & ->)|[(i & _ & _ & ->)|(i & _ & _ & ->)]].
    + apply login_users.
    + apply putReview_users.
    + apply deleteReview_users.
  - repeat case_match; simplify_eq; try exact Hpublic.
Qed.

Lemma app_users `{StringBuiltins} e st req : users_pushed st (app e st req).1.
Proof.
  unfold app, auth.
  repeat case_match; simpl; auto using users_pushed_refl, routes_users.
Qed.

Lemma serve_users `{StringBuiltins} (rs : list (Env * Request)) (st : State) :
  users_pushed st (serve st rs).
Proof.
  revert st. induction rs as [|[e req] rs IH]; intros st; simpl.
  - apply users_pushed_refl.
  - eapply users_pushed_trans; [apply app_users|apply IH].
Qed.

(** ** Registration *)

Lemma register_missing e st req :
  falsy (body req !! "username") = true \/ falsy (body req !! "password") = true ->
  register e st req = (st, required_reply).
Proof.
  unfold register, required_reply.
  destruct (body req !! "username") as [u|], (body req !! "password") as [p|];
    simpl; unfold is_empty; intros [Hf|Hf]; try done; rewrite Hf; try done.
  by rewrite orb_true_r.
Qed.

Lemma register_duplicate e st req u :
  body req !! "username" = Some u -> truthy (body req !! "password") = true ->
  isValid (users st) u = true ->
  register e st req = (st, if is_empty u then required_reply else duplicate_reply).
Proof.
  unfold register, required_reply, duplicate_reply, truthy. intros -> Hp Hv.
  destruct (body req !! "password") as [p|]; [|done].
  simpl in Hp. unfold is_empty in *.
  apply negb_true_iff in Hp. rewrite Hp, orb_false_r.
  destruct (bool_decide (u = "")); [done|]. by rewrite Hv.
Qed.

Lemma register_success e st req :
  status (register e st req).2 = 200 ->
  exists u p, body req !! "username" = Some u /\ body req !! "password" = Some p /\
    u <> "" /\ p <> "" /\ isValid (users st) u = false /\
    (register e st req).1
    = with_users st (users st ++ [{| username := u; password := p |}]).
Proof.
  unfold register.
  destruct (body req !! "username") as [u|]; [|simpl; discriminate].
  destruct (body req !! "password") as [p|]; [|simpl; discriminate].
  unfold is_empty.
  destruct (bool_decide_reflect (u = "")) as [|Hu]; [simpl; discriminate|].
  destruct (bool_decide_reflect (p = "")) as [|Hp]; [simpl; discriminate|].
  simpl. destruct (isValid (users st) u) eqn:Hv; [simpl; discriminate|].
  intros _. exists u, p. done.
Qed.

(** C10. Atomicity of registration on error: [register] answers something
    other than 200 exactly when a field is missing or empty or the username
    is taken, and whenever it does, the state it returns is the state it was
    given; in particular the user array is the same and nothing was pushed. *)
Theorem register_failure_leaves_directory (e : Env) (st : State) (req : Request) :
  (register_fails st req <-> status (register e st req).2 <> 200) /\
  (status (register e st req).2 <> 200 ->
   (register e st req).1 = st /\ users (register e st req).1 = users st).
Proof.
  assert (Hfail : register_fails st req ->
                  (register e st req).1 = st /\ status (register e st req).2 <> 200).
  { intros [Hu|[Hp|(u & Hu & Hv)]].
    - rewrite register_missing by auto. done.
    - rewrite register_missing by auto. done.
    - destruct (falsy (body req !! "password")) eqn:Hp.
      + rewrite register_missing by auto. done.
      + assert (Ht : truthy (body req !! "password") = true)
          by (unfold truthy; by rewrite Hp).
        rewrite (register_duplicate e st req u Hu Ht Hv).
        destruct (is_empty u); done. }
  assert (Hconv : status (register e st req).2 <> 200 -> register_fails st req).
  { unfold register_fails, register.
    destruct (body req !! "username") as [u|]; [|auto].
    destruct (body req !! "password") as [p|]; [|auto].
    unfold falsy, is_empty.
    destruct (bool_decide (u = "")); [auto|].
    destruct (bool_decide (p = "")); [auto|].
    simpl. destruct (isValid (users st) u) eqn:Hv; [eauto 6|].
    simpl. intros Hc. by destruct Hc. }
  split; [split|].
  - intros Hf. by apply Hfail.
  - exact Hconv.
  - intros Hs. destruct (Hfail (Hconv Hs)) as [-> _]. done.
Qed.

Lemma register_failure_leaves_directory_witness :
  users (register (Sample.env (1 # 2)) Sample.registered
                  (Sample.register_alice "other")).1
  = [Sample.alice].
Proof.
  refine (proj2 (proj2 (register_failure_leaves_directory
                          (Sample.env (1 # 2)) Sample.registered
                          (Sample.register_alice "other")) _)).
  vm_compute. discriminate.
Defined.

(** C7, as the code has it. After [register] succeeds for [u], [isValid u]
    holds, and it still holds after any further run of requests; from then
    on a registration of [u] never registers: it is answered 409 when its
    password is a non-empty string and 400 when the password is empty or
    missing. *)
Theorem register_then_duplicate `{StringBuiltins}
    (e : Env) (st : State) (req : Request) (u : string) :
  body req !! "username" = Some u ->
  status (register e st req).2 = 200 ->
  isValid (users (register e st req).1) u = true /\
  forall (rs : list (Env * Request)) (e' : Env) (req' : Request),
    body req' !! "username" = Some u ->
    let later := serve (register e st req).1 rs in
    isValid (users later) u = true /\
    (truthy (body req' !! "password") = true ->
     register e' later req' = (later, duplicate_reply)) /\
    (falsy (body req' !! "password") = true ->
     register e' later req' = (later, required_reply)).
Proof.
  intros Hu Hok.
  destruct (register_success e st req Hok) as (u' & p & Hu' & _ & Hne & _ & _ & Hst).
  assert (u' = u) as -> by congruence.
  assert (Hnow : isValid (users (register e st req).1) u = true).
  { rewrite Hst. simpl. apply isValid_push. }
  split; [exact Hnow|].
  intros rs e' req' Hu2 later.
  assert (Hlater : isValid (users later) u = true).
  { destruct (serve_users rs (register e st req).1) as [more Hmore].
    unfold later. rewrite Hmore. by apply isValid_grows. }
  split; [exact Hlater|split].
  - intros Hp. rewrite (register_duplicate e' later req' u Hu2 Hp Hlater).
    unfold is_empty. by rewrite bool_decide_eq_false_2.
  - intros Hp. apply register_missing. auto.
Qed.

Lemma register_then_duplicate_witness :
  register (Sample.env (1 # 2))
           (register (Sample.env (1 # 2)) initial_state (Sample.register_alice "pw1")).1
           (Sample.register_alice "pw2")
  = ((register (Sample.env (1 # 2)) initial_state (Sample.register_alice "pw1")).1,
     duplicate_reply).
Proof.
  refine (proj1 (proj2 (proj2 (@register_then_duplicate Latin1.builtins
            (Sample.env (1 # 2)) initial_state (Sample.register_alice "pw1") "alice"
            _ _) [] (Sample.env (1 # 2)) (Sample.register_alice "pw2") _)) _);
    vm_compute; reflexivity.
Defined.

(** C7 as stated fails: once [alice] is registered, registering [alice]
    again with an empty password is answered 400, not 409. *)
Lemma register_again_empty_password :
  status (register (Sample.env (1 # 2)) initial_state (Sample.register_alice "pw1")).2
  = 200 /\
  register (Sample.env (1 # 2))
           (register (Sample.env (1 # 2)) initial_state (Sample.register_alice "pw1")).1
           (Sample.register_alice "")
  = ((register (Sample.env (1 # 2)) initial_state (Sample.register_alice "pw1")).1,
     respond 400 (Message "Username and password are required")) /\
  status (register (Sample.env (1 # 2))
           (register (Sample.env (1 # 2)) initial_state (Sample.register_alice "pw1")).1
           (Sample.register_alice "")).2 <> 409.
Proof. vm_compute. split; [reflexivity|split; [reflexivity|discriminate]]. Qed.

(** ** The session gate *)

Lemma exceeds_false (draw t : Q) : exceeds draw t = false <-> (draw <= t)%Q.
Proof. unfold exceeds. rewrite negb_false_iff. apply Qle_bool_iff. Qed.

Lemma exceeds_true (draw t : Q) : exceeds draw t = true <-> ~ (draw <= t)%Q.
Proof.
  unfold exceeds. rewrite negb_true_iff, <- Qle_bool_iff.
  destruct (Qle_bool draw t); split; congruence.
Qed.

Lemma login_status e st req :
  status (login e st req).2 = 200 \/ status (login e st req).2 = 400 \/
  status (login e st req).2 = 404.
Proof. unfold login. repeat case_match; simpl; auto. Qed.

(** C1, as the code has it. The gate is mounted on [/customer/auth/*] only:
    a login request is handed to the [login] handler whatever its session
    holds, and is answered 200, 400 or 404, never the gate's 403; a
    review-mutation request whose session holds no credential is answered
    403 by the gate and leaves the state as it was. *)
Theorem login_outside_gate `{StringBuiltins} (e : Env) (st : State) (req : Request) :
  (is_login req ->
   app e st req = login e st req /\ status (app e st req).2 <> 403) /\
  (is_review_mutation req -> sessions st !! session_id req = None ->
   app e st req = (st, not_logged_in)).
Proof.
  split.
  - intros [Hm Hp].
    assert (Happ : app e st req = login e st req).
    { unfold app, routes. rewrite Hp, Hm. reflexivity. }
    split; [exact Happ|]. rewrite Happ.
    destruct (login_status e st req) as [Hs|[Hs|Hs]]; rewrite Hs; discriminate.
  - intros [_ [isbn Hp]] Hnone.
    unfold app, auth. rewrite Hp. simpl. rewrite Hnone. reflexivity.
Qed.

Lemma login_outside_gate_witness :
  @app Latin1.builtins (Sample.env (1 # 2)) Sample.registered Sample.login_alice
  = login (Sample.env (1 # 2)) Sample.registered Sample.login_alice /\
  @app Latin1.builtins (Sample.env (1 # 2)) Sample.registered
       (Sample.request PUT ["customer"; "auth"; "review"; "1"] [] [("review", "Loved it")])
  = (Sample.registered, not_logged_in).
Proof.
  split.
  - refine (proj1 (proj1 (@login_outside_gate Latin1.builtins _ _ _) _)).
    split; reflexivity.
  - refine (proj2 (@login_outside_gate Latin1.builtins _ _ _) _ _).
    + split; [left; reflexivity|exists "1"; reflexivity].
    + reflexivity.
Defined.

(** C1 as stated fails: a login request whose session holds no credential
    reaches the login handler, which logs [alice] in and answers 200. *)
Lemma login_without_credential_served :
  sessions Sample.registered !! session_id Sample.login_alice = None /\
  (@app Latin1.builtins (Sample.env (1 # 2)) Sample.registered Sample.login_alice).2
  = respond 200 (Message "User successfully logged in") /\
  (@app Latin1.builtins (Sample.env (1 # 2)) Sample.registered Sample.login_alice).2
  <> not_logged_in.
Proof. vm_compute. split; [reflexivity|split; [reflexivity|discriminate]]. Qed.

(** ** Listing the catalog *)

(** C2, as the code has it. [listAll] never changes the state; when the
    draw does not exceed 0.95 it answers 200 with the whole catalog, for any
    request and any catalog, and when the draw exceeds 0.95 it answers 500
    with the simulated error. *)
Theorem listAll_outcome (e : Env) (st : State) (req : Request) :
  ((random e 0 <= d0_95)%Q ->
   listAll e st req
   = (st, respond 200 (AllBooks "Books retrieved successfully using Async/Await"
                                "async-await" (size (books st)) (books st)))) /\
  (~ (random e 0 <= d0_95)%Q ->
   listAll e st req
   = (st, respond 500 (Failure "Error retrieving books using Async/Await" "async-await"
                               None "Simulated database connection error"))).
Proof.
  unfold listAll, getBooksAsync. split; intros Hd.
  - apply exceeds_false in Hd. by rewrite Hd.
  - apply exceeds_true in Hd. by rewrite Hd.
Qed.

Lemma listAll_outcome_witness :
  listAll (Sample.env (1 # 2)) initial_state (Sample.request GET [] [] [])
  = (initial_state,
     respond 200 (AllBooks "Books retrieved successfully using Async/Await"
                           "async-await" (size seeded_books) seeded_books)).
Proof.
  refine (proj1 (listAll_outcome (Sample.env (1 # 2)) initial_state
                                 (Sample.request GET [] [] [])) _).
  vm_compute. discriminate.
Defined.

(** C2 as stated fails: with a draw of 0.96 the listing is answered 500. *)
Lemma listAll_can_fail :
  (@app Latin1.builtins (Sample.env (96 # 100)) initial_state
        (Sample.request GET [] [] [])).2
  = respond 500 (Failure "Error retrieving books using Async/Await" "async-await"
                         None "Simulated database connection error").
Proof. vm_compute. reflexivity. Qed.

(** ** Looking a book up *)

Lemma lookup_book_own (st : State) (isbn : string) (b : Book) :
  books st !! isbn = Some b -> lookup_book st isbn = Some (own_book b).
Proof. unfold lookup_book. by intros ->. Qed.

Lemma lookup_book_None (st : State) (isbn : string) :
  lookup_book st isbn = None <->
  books st !! isbn = None /\ provides (prototype st) isbn = false.
Proof.
  unfold lookup_book, provides, polluted.
  destruct (books st !! isbn) as [b|]; [by split; [|intros [? _]]|].
  destruct (bool_decide (isbn = "__proto__")); [by split; [|intros [_ ?]]|].
  destruct (is_function_member isbn); [by split; [|intros [_ ?]]|].
  destruct (bool_decide (isbn = "reviews")); [|done].
  destruct (proto_reviews (prototype st)); simpl; split; try done. by intros [_ ?].
Qed.

Lemma store_in_book (st : State) (isbn : string) (b : Book) (m : gmap string string) :
  books st !! isbn = Some b ->
  store st (in_book isbn) m = with_books st (<[isbn := with_reviews b m]> (books st)).
Proof. unfold store. by intros ->. Qed.

Lemma js_set_lookup (m : gmap string string) (k v : string) :
  k <> "__proto__" \/ is_Some (m !! k) -> js_set m k v !! k = Some v.
Proof.
  unfold js_set. intros Hk.
  destruct (bool_decide_reflect (k = "__proto__")) as [->|Hne]; simpl.
  - destruct Hk as [Hk|[s Hs]]; [done|]. rewrite Hs.
    rewrite bool_decide_eq_false_2 by done. apply lookup_insert_eq.
  - apply lookup_insert_eq.
Qed.

Lemma js_set_lookup_ne (m : gmap string string) (k k' v : string) :
  k' <> k -> js_set m k v !! k' = m !! k'.
Proof.
  unfold js_set. intros Hne. case_match; [done|]. by apply lookup_insert_ne.
Qed.

Lemma js_set_twice (m : gmap string string) (k v w : string) :
  js_set (js_set m k v) k w = js_set m k w.
Proof.
  unfold js_set.
  destruct (bool_decide_reflect (k = "__proto__")) as [->|Hne]; simpl.
  - destruct (m !! "__proto__") as [s|] eqn:Hm.
    + rewrite !(bool_decide_eq_false_2 (Some s = None)) by done.
      rewrite lookup_insert_eq. rewrite bool_decide_eq_false_2 by done.
      apply insert_insert_eq.
    + rewrite !(bool_decide_eq_true_2 (None = None)) by done.
      by rewrite Hm, bool_decide_eq_true_2.
  - apply insert_insert_eq.
Qed.

Lemma delete_js_set (m : gmap string string) (k v : string) :
  delete k (js_set m k v) = delete k m.
Proof. unfold js_set. case_match; [done|]. apply delete_insert_eq. Qed.

Lemma entry_truthy_js_set (p : Prototype) (m : gmap string string) (k v : string) :
  v <> "" -> entry_truthy p (js_set m k v) k = true.
Proof.
  intros Hv. unfold entry_truthy, js_set.
  destruct (bool_decide_reflect (k = "__proto__")) as [->|Hne]; simpl.
  - destruct (m !! "__proto__") as [s|] eqn:Hm.
    + rewrite bool_decide_eq_false_2 by done. rewrite lookup_insert_eq.
      unfold is_empty. by rewrite bool_decide_eq_false_2.
    + rewrite bool_decide_eq_true_2 by done. by rewrite Hm.
  - rewrite lookup_insert_eq. unfold is_empty. by rewrite bool_decide_eq_false_2.
Qed.

(** ** Writing a review *)

Lemma putReview_success
    (isbn : string) (e : Env) (st : State) (req : Request)
    (a : Authorization) (b : Book) (text : string) :
  sessions st !! session_id req = Some a ->
  query req !! "review" = Some text -> text <> "" ->
  books st !! isbn = Some b ->
  putReview isbn e st req
  = (with_books st
       (<[isbn := with_reviews b (js_set (reviews_of b) (auth_username a) text)]>
          (books st)),
     saved isbn text (auth_username a)).
Proof.
  intros Hs Hq Hne Hb. unfold putReview. rewrite Hs, Hq.
  rewrite (lookup_book_own st isbn b Hb).
  unfold is_empty. rewrite bool_decide_eq_false_2 by done.
  unfold ensure_reviews. cbn -[store]. by rewrite (store_in_book st isbn b _ Hb).
Qed.

Lemma deleteReview_own
    (isbn : string) (e : Env) (st : State) (req : Request)
    (a : Authorization) (b : Book) :
  sessions st !! session_id req = Some a -> books st !! isbn = Some b ->
  deleteReview isbn e st req
  = if entry_truthy (prototype st) (reviews_of b) (auth_username a)
    then (with_books st
            (<[isbn := with_reviews b (delete (auth_username a) (reviews_of b))]>
               (books st)),
          deleted isbn (auth_username a))
    else (st, review_not_found).
Proof.
  intros Hs Hb. unfold deleteReview. rewrite Hs, (lookup_book_own st isbn b Hb).
  cbn -[store]. unfold reviews_of. case_match; [|done].
  by rewrite (store_in_book st isbn b _ Hb).
Qed.

(** ** Deleting a review *)

(** C3, as the code has it. For a book id and a session user that
    [Object.prototype] does not provide, [deleteReview] answers 404 and
    leaves the state as it was both when the id is not in the catalog and
    when the book carries no review by that user; the status is the same in
    the two cases and the message is not: "Book not found" for the first,
    "Review not found for this user" for the second. *)
Theorem deleteReview_not_found
    (isbn : string) (e : Env) (st : State) (req : Request) (a : Authorization) :
  sessions st !! session_id req = Some a ->
  (books st !! isbn = None -> provides (prototype st) isbn = false ->
   deleteReview isbn e st req = (st, book_not_found)) /\
  (forall b, books st !! isbn = Some b -> no_review_by b (auth_username a) ->
             provides (prototype st) (auth_username a) = false ->
             deleteReview isbn e st req = (st, review_not_found)) /\
  status book_not_found = 404 /\ status review_not_found = 404 /\
  json book_not_found <> json review_not_found.
Proof.
  intros Hs. split; [|split; [|done]].
  - intros Hb Hp. unfold deleteReview. rewrite Hs.
    by rewrite (proj2 (lookup_book_None st isbn) (conj Hb Hp)).
  - intros b Hb Hno Hp. rewrite (deleteReview_own isbn e st req a b Hs Hb).
    unfold entry_truthy, reviews_of. unfold no_review_by in Hno. by rewrite Hno, Hp.
Qed.

Lemma deleteReview_not_found_witness :
  deleteReview "11" (Sample.env (1 # 2)) Sample.logged_in
               (Sample.request DELETE ["customer"; "auth"; "review"; "11"] [] [])
  = (Sample.logged_in, book_not_found) /\
  deleteReview "1" (Sample.env (1 # 2)) Sample.logged_in
               (Sample.request DELETE ["customer"; "auth"; "review"; "1"] [] [])
  = (Sample.logged_in, review_not_found).
Proof.
  split.
  - refine (proj1 (deleteReview_not_found "11" _ _ _ Sample.alice_session _) _ _);
      reflexivity.
  - refine (proj1 (proj2 (deleteReview_not_found "1" _ _ _ Sample.alice_session _))
                  (seed "Chinua Achebe" "Things Fall Apart") _ _ _);
      reflexivity.
Defined.

(** C3 as stated fails: the absent book and the book without a review by
    the user get the same status and different bodies. *)
Lemma deleteReview_bodies_differ :
  (@app Latin1.builtins (Sample.env (1 # 2)) Sample.logged_in
        (Sample.request DELETE ["customer"; "auth"; "review"; "11"] [] [])).2
  = respond 404 (Message "Book not found") /\
  (@app Latin1.builtins (Sample.env (1 # 2)) Sample.logged_in
        (Sample.request DELETE ["customer"; "auth"; "review"; "1"] [] [])).2
  = respond 404 (Message "Review not found for this user") /\
  json (@app Latin1.builtins (Sample.env (1 # 2)) Sample.logged_in
          (Sample.request DELETE ["customer"; "auth"; "review"; "11"] [] [])).2
  <> json (@app Latin1.builtins (Sample.env (1 # 2)) Sample.logged_in
             (Sample.request DELETE ["customer"; "auth"; "review"; "1"] [] [])).2.
Proof. vm_compute. split; [reflexivity|split; [reflexivity|discriminate]]. Qed.

(** ** Reading the reviews of a book *)

(** C5, at the failing input. The id [constructor] is not in the catalog,
    and [GET /review/constructor] is answered 200 with an empty mapping and
    no title: [books[isbn]] finds the member that [Object.prototype]
    provides. *)
Lemma getReviews_inherited_id_served :
  books initial_state !! "constructor" = None /\
  @app Latin1.builtins (Sample.env (1 # 2)) initial_state (get_reviews "constructor")
  = (initial_state,
     respond 200 (Reviews "No reviews found for book with ISBN constructor"
                          None (shown_map ∅) 0)).
Proof. vm_compute. split; reflexivity. Qed.

(** C6, at the failing input. The user [__proto__] registers, logs in and
    writes a review of book 1: the answer is 200 with the review echoed, and
    [GET /review/1] then shows an empty mapping, since the assignment
    [reviews["__proto__"] = review] stores nothing. *)
Lemma putReview_proto_user_stores_nothing :
  (@app Latin1.builtins (Sample.env (1 # 2))
        (@serve Latin1.builtins initial_state proto_user_arrives)
        (put_review "1" "Loved it")).2
  = saved "1" "Loved it" "__proto__" /\
  (@app Latin1.builtins (Sample.env (1 # 2))
        (@app Latin1.builtins (Sample.env (1 # 2))
              (@serve Latin1.builtins initial_state proto_user_arrives)
              (put_review "1" "Loved it")).1
        (get_reviews "1")).2
  = respond 200 (Reviews "No reviews found for book with ISBN 1"
                         (Some "Things Fall Apart") (shown_map ∅) 0).
Proof. vm_compute. split; reflexivity. Qed.

(** C8, at the failing input. The id [constructor] is not in the catalog,
    and a review written there by a logged-in user is answered 200, not 400:
    it is stored on the function that [Object.prototype] provides under that
    name. *)
Lemma putReview_inherited_id_accepted :
  books Sample.logged_in !! "constructor" = None /\
  (@app Latin1.builtins (Sample.env (1 # 2)) Sample.logged_in
        (put_review "constructor" "Loved it")).2
  = saved "constructor" "Loved it" "alice" /\
  member_reviews
    (prototype (@app Latin1.builtins (Sample.env (1 # 2)) Sample.logged_in
                     (put_review "constructor" "Loved it")).1) !! "constructor"
  = Some {[ "alice" := "Loved it" ]}.
Proof. vm_compute. repeat split; reflexivity. Qed.

(** C9. Frame: a successful [putReview] on a book of the catalog keeps the
    author and the title of that book and every entry of its review map
    other than that of the session's user, which it sets to the text unless
    the user is called [__proto__]; it keeps every other book, the user
    array, the session store and what hangs on [Object.prototype]. *)
Theorem putReview_frame
    (isbn : string) (e : Env) (st : State) (req : Request)
    (a : Authorization) (b : Book) (text : string) :
  sessions st !! session_id req = Some a ->
  query req !! "review" = Some text -> text <> "" ->
  books st !! isbn = Some b ->
  status (putReview isbn e st req).2 = 200 /\
  (exists b',
     books (putReview isbn e st req).1 !! isbn = Some b' /\
     author b' = author b /\ title b' = title b /\
     (auth_username a <> "__proto__" ->
      reviews_of b' !! auth_username a = Some text) /\
     forall other, other <> auth_username a ->
       reviews_of b' !! other = reviews_of b !! other) /\
  (forall isbn', isbn' <> isbn ->
     books (putReview isbn e st req).1 !! isbn' = books st !! isbn') /\
  users (putReview isbn e st req).1 = users st /\
  sessions (putReview isbn e st req).1 = sessions st /\
  prototype (putReview isbn e st req).1 = prototype st.
Proof.
  intros Hs Hq Hne Hb.
  rewrite (putReview_success isbn e st req a b text Hs Hq Hne Hb). simpl.
  split; [reflexivity|split; [|split; [|split; [|split]]]]; try reflexivity.
  - eexists. split; [apply lookup_insert_eq|]. simpl.
    split; [reflexivity|split; [reflexivity|split]].
    + intros Huser. unfold reviews_of at 1. simpl. apply js_set_lookup. by left.
    + intros other Hother. unfold reviews_of at 1. simpl.
      by apply js_set_lookup_ne.
  - intros isbn' Hother. by apply lookup_insert_ne.
Qed.

Lemma putReview_frame_witness :
  books (putReview "1" (Sample.env (1 # 2)) Sample.logged_in
           (Sample.request PUT ["customer"; "auth"; "review"; "1"] []
                            [("review", "Loved it")])).1 !! "2"
  = seeded_books !! "2".
Proof.
  refine (proj1 (proj2 (proj2 (putReview_frame "1" _ Sample.logged_in _
            Sample.alice_session (seed "Chinua Achebe" "Things Fall Apart") "Loved it"
            _ _ _ _))) "2" _); try reflexivity; discriminate.
Defined.

(** ** The same handlers on ids and names that are nothing but keys *)

(** X24. The reviews route: it never changes the state; for a book of the
    catalog it answers 200 with the review map of the book and its size, the
    empty map when the book has no review; and it answers 404 exactly when
    the id is neither in the catalog nor a property that [Object.prototype]
    provides. *)
Theorem getReviews_outcome (isbn : string) (e : Env) (st : State) (req : Request) :
  (getReviews isbn e st req).1 = st /\
  (forall b, books st !! isbn = Some b -> reviews_of b = ∅ ->
     (getReviews isbn e st req).2
     = respond 200 (Reviews ("No reviews found for book with ISBN " ++ isbn)
                            (Some (title b)) (shown_map ∅) 0)) /\
  (forall b, books st !! isbn = Some b ->
     exists message,
       (getReviews isbn e st req).2
       = respond 200 (Reviews message (Some (title b)) (shown_map (reviews_of b))
                              (size (reviews_of b)))) /\
  (status (getReviews isbn e st req).2 = 404 <->
   books st !! isbn = None /\ provides (prototype st) isbn = false) /\
  (books st !! isbn = None -> provides (prototype st) isbn = false ->
     (getReviews isbn e st req).2
     = respond 404 (Message ("Book with ISBN " ++ isbn ++ " not found"))).
Proof.
  split; [apply getReviews_state|].
  assert (Hown : forall b, books st !! isbn = Some b ->
    (getReviews isbn e st req).2
    = if (0 <? size (reviews b))%nat
      then respond 200
             (Reviews ("Reviews for book with ISBN " ++ isbn ++ " retrieved successfully")
                      (Some (title b)) (shown_map (reviews b)) (size (reviews b)))
      else respond 200 (Reviews ("No reviews found for book with ISBN " ++ isbn)
                                (Some (title b)) (shown_map ∅) 0)).
  { intros b Hb. unfold getReviews. rewrite (lookup_book_own st isbn b Hb). simpl.
    by destruct (0 <? size (reviews b))%nat. }
  split; [|split; [|split]].
  - intros b Hb Hempty. rewrite (Hown b Hb). unfold reviews_of in Hempty.
    by rewrite Hempty.
  - intros b Hb. rewrite (Hown b Hb). unfold reviews_of.
    destruct (0 <? size (reviews b))%nat eqn:Hsz; [eauto|].
    apply Nat.ltb_ge in Hsz.
    assert (reviews b = ∅) as -> by (apply map_size_empty_inv; lia).
    rewrite map_size_empty. eauto.
  - rewrite <- lookup_book_None. unfold getReviews.
    destruct (lookup_book st isbn) as [t|]; [|done].
    split; [|done]. repeat case_match; simpl; discriminate.
  - intros Hb Hp. unfold getReviews.
    by rewrite (proj2 (lookup_book_None st isbn) (conj Hb Hp)).
Qed.

Lemma getReviews_outcome_witness :
  (getReviews "1" (Sample.env (1 # 2)) initial_state (get_reviews "1")).2
  = respond 200 (Reviews "No reviews found for book with ISBN 1"
                         (Some "Things Fall Apart") (shown_map ∅) 0) /\
  (getReviews "11" (Sample.env (1 # 2)) initial_state (get_reviews "11")).2
  = respond 404 (Message "Book with ISBN 11 not found").
Proof.
  split.
  - refine (proj1 (proj2 (getReviews_outcome "1" _ _ _))
                  (seed "Chinua Achebe" "Things Fall Apart") _ _); reflexivity.
  - refine (proj2 (proj2 (proj2 (proj2 (getReviews_outcome "11" _ _ _)))) _ _);
      reflexivity.
Defined.

(** X25. Round trip for every user but [__proto__]: for a book of the catalog and
    a non-empty text, [putReview] answers 200 and a [getReviews] of the same
    id on the resulting state answers 200 with a mapping that sends the user
    of the session to the text. *)
Theorem putReview_getReviews
    (isbn : string) (e e' : Env) (st : State) (req req' : Request)
    (a : Authorization) (b : Book) (text : string) :
  sessions st !! session_id req = Some a ->
  query req !! "review" = Some text -> text <> "" ->
  books st !! isbn = Some b ->
  auth_username a <> "__proto__" ->
  status (putReview isbn e st req).2 = 200 /\
  status (getReviews isbn e' (putReview isbn e st req).1 req').2 = 200 /\
  exists rs,
    reviews_sent (getReviews isbn e' (putReview isbn e st req).1 req').2 = Some rs /\
    rs !! auth_username a = Some text.
Proof.
  intros Hs Hq Hne Hb Huser.
  rewrite (putReview_success isbn e st req a b text Hs Hq Hne Hb). simpl.
  split; [reflexivity|].
  set (rs := js_set (reviews_of b) (auth_username a) text).
  assert (Hrs : rs !! auth_username a = Some text) by (apply js_set_lookup; by left).
  unfold getReviews. erewrite lookup_book_own by (simpl; apply lookup_insert_eq).
  simpl. fold rs.
  destruct (0 <? size rs)%nat eqn:Hsz.
  - simpl. split; [reflexivity|]. by exists rs.
  - apply Nat.ltb_ge in Hsz.
    assert (Hempty : rs = ∅) by (apply map_size_empty_inv; lia).
    by rewrite Hempty, lookup_empty in Hrs.
Qed.

Lemma putReview_getReviews_witness :
  exists rs,
    reviews_sent
      (getReviews "1" (Sample.env (1 # 2))
         (putReview "1" (Sample.env (1 # 2)) Sample.logged_in
            (put_review "1" "Loved it")).1
         (get_reviews "1")).2 = Some rs /\
    rs !! "alice" = Some "Loved it".
Proof.
  refine (proj2 (proj2 (putReview_getReviews "1" _ _ Sample.logged_in _ _
            Sample.alice_session (seed "Chinua Achebe" "Things Fall Apart") "Loved it"
            _ _ _ _ _))); try reflexivity; discriminate.
Defined.

(** X26. What [putReview] checks: it takes the review text from the query string
    and from nothing else of the request, so that two requests of one
    session with the same query get the same outcome whatever their bodies
    are; the text saved for a book of the catalog and echoed is the query's;
    a missing or empty text is answered 400; and an id that is neither in
    the catalog nor a property that [Object.prototype] provides is answered
    400 with the message "Book not found". *)
Theorem putReview_validation
    (isbn : string) (e : Env) (st : State) (req : Request) (a : Authorization) :
  sessions st !! session_id req = Some a ->
  (forall e' req', query req' = query req -> session_id req' = session_id req ->
     putReview isbn e' st req' = putReview isbn e st req) /\
  (forall text b, query req !! "review" = Some text -> text <> "" ->
     books st !! isbn = Some b ->
     (putReview isbn e st req).2 = saved isbn text (auth_username a)) /\
  (falsy (query req !! "review") = true ->
     putReview isbn e st req = (st, review_required)) /\
  (truthy (query req !! "review") = true ->
   books st !! isbn = None -> provides (prototype st) isbn = false ->
     putReview isbn e st req = (st, respond 400 (Message "Book not found"))).
Proof.
  intros Hs. split; [|split; [|split]].
  - intros e' req' Hq Hsid. unfold putReview. by rewrite Hq, Hsid.
  - intros text b Hq Hne Hb.
    by rewrite (putReview_success isbn e st req a b text Hs Hq Hne Hb).
  - unfold putReview, review_required. rewrite Hs.
    destruct (query req !! "review") as [text|]; [|done].
    simpl. unfold is_empty. by intros ->.
  - unfold putReview, truthy. rewrite Hs.
    destruct (query req !! "review") as [text|]; [|done].
    simpl. unfold is_empty. intros Ht Hb Hp. apply negb_true_iff in Ht. rewrite Ht.
    by rewrite (proj2 (lookup_book_None st isbn) (conj Hb Hp)).
Qed.

Lemma putReview_validation_witness :
  putReview "1" (Sample.env (1 # 2)) Sample.logged_in
            (Sample.request PUT ["customer"; "auth"; "review"; "1"]
                             [("review", "from the body")] [])
  = (Sample.logged_in, review_required) /\
  putReview "11" (Sample.env (1 # 2)) Sample.logged_in (put_review "11" "Loved it")
  = (Sample.logged_in, respond 400 (Message "Book not found")).
Proof.
  split.
  - refine (proj1 (proj2 (proj2 (putReview_validation "1" _ Sample.logged_in _
              Sample.alice_session _))) _); reflexivity.
  - refine (proj2 (proj2 (proj2 (putReview_validation "11" _ Sample.logged_in _
              Sample.alice_session _))) _ _ _); reflexivity.
Defined.

(** ** Sorting with a comparator *)

Section Sort.
Context {A : Type} (cmp : A -> A -> Z).
Hypothesis cmp_total : forall a b, cmp a b <= 0 \/ cmp b a <= 0.
Hypothesis cmp_trans : forall a b c, cmp a b <= 0 -> cmp b c <= 0 -> cmp a c <= 0.


Lemma sort_insert_perm (x : A) (l : list A) : Permutation (sort_insert cmp x l) (x :: l).
Proof.
  induction l as [|y l IH]; simpl; [reflexivity|].
  destruct (cmp x y <=? 0); [reflexivity|].
  rewrite IH. apply perm_swap.
Qed.

Lemma array_sort_perm (l : list A) : Permutation (array_sort cmp l) l.
Proof.
  induction l as [|x l IH]; simpl; [reflexivity|].
  rewrite sort_insert_perm. by constructor.
Qed.



End Sort.

Lemma array_sort_fmap {A B : Type} (f : A -> B) (cmp : B -> B -> Z) (l : list A) :
  array_sort cmp (f <$> l) = f <$> array_sort (fun x y => cmp (f x) (f y)) l.
Proof.
  unfold array_sort. induction l as [|x l IH]; [reflexivity|].
  rewrite fmap_cons. cbn [foldr]. rewrite IH.
  generalize (foldr (sort_insert (fun x y => cmp (f x) (f y))) [] l). intros s.
  induction s as [|y s IHs]; [reflexivity|].
  rewrite fmap_cons. cbn [sort_insert].
  destruct (cmp (f x) (f y) <=? 0); [reflexivity|].
  by rewrite fmap_cons, IHs.
Qed.


(** ** Enumerating the catalog *)

Lemma split_by_index_perm {A : Type} (f : A -> option N) (l : list A) :
  Permutation
    ((snd <$> omap (fun x => (fun n => (n, x)) <$> f x) l)
       ++ List.filter (fun x => negb (bool_decide (is_Some (f x)))) l)
    l.
Proof.
  induction l as [|x l IH]; simpl; [reflexivity|].
  destruct (f x) as [n|] eqn:Hf; simpl.
  - constructor. exact IH.
  - rewrite <- Permutation_middle. constructor. exact IH.
Qed.

Lemma own_entries_perm {A : Type} (m : gmap string A) :
  Permutation (own_entries m) (map_to_list m).
Proof.
  unfold own_entries.
  rewrite <- (split_by_index_perm (fun entry => array_index entry.1) (map_to_list m))
    at 3.
  apply Permutation_app_tail, fmap_Permutation, array_sort_perm.
Qed.

Lemma elem_of_own_entries {A : Type} (m : gmap string A) (k : string) (x : A) :
  (k, x) ∈ own_entries m <-> m !! k = Some x.
Proof. rewrite own_entries_perm. apply elem_of_map_to_list. Qed.


(** The enumeration of the seeded catalog. *)
Example own_entries_seeded :
  (own_entries seeded_books).*1 = ["1"; "2"; "3"; "4"; "5"; "6"; "7"; "8"; "9"; "10"].
Proof. vm_compute. reflexivity. Qed.

(** ** Searching by author *)

Lemma hit_inj : Inj (=) (=) hit.
Proof.
  intros [i1 [a1 t1 r1]] [i2 [a2 t2 r2]] Heq.
  injection Heq as -> -> -> ->. reflexivity.
Qed.

Lemma sort_hits_books `{StringBuiltins} (field : Book -> string)
    (key : Hit -> option string) (l : list (string * Book)) :
  (forall entry, key (hit entry) = Some (field entry.2)) ->
  sort_hits key (hit <$> l)
  = resolved (hit <$> array_sort
                        (fun x y => localeCompare (field x.2) (field y.2)) l).
Proof.
  intros Hkey. unfold sort_hits.
  assert (Hall : existsb (fun h => negb (bool_decide (is_Some (key h))))
                         (tail (hit <$> l)) = false).
  { destruct l as [|x l]; [reflexivity|]. simpl.
    induction l as [|y l IH]; simpl; [reflexivity|].
    rewrite Hkey, bool_decide_eq_true_2 by eauto. exact IH. }
  rewrite Hall, array_sort_fmap. f_equal. f_equal.
  assert (Hext : forall (c1 c2 : string * Book -> string * Book -> Z) s,
            (forall x y, c1 x y = c2 x y) -> array_sort c1 s = array_sort c2 s).
  { intros c1 c2 s Hc. unfold array_sort.
    induction s as [|x s IH]; simpl; [reflexivity|]. rewrite IH.
    generalize (foldr (sort_insert c2) [] s). intros r.
    induction r as [|y r IHr]; simpl; [reflexivity|]. by rewrite Hc, IHr. }
  apply Hext. intros x y. by rewrite !Hkey.
Qed.

Lemma author_loop_unpolluted `{StringBuiltins} (st : State) (searchAuthor : string) :
  unpolluted st ->
  author_loop st searchAuthor = resolved (author_matches (books st) searchAuthor).
Proof.
  unfold unpolluted, author_loop, inherited_entry. intros ->.
  by destruct (books st !! "reviews").
Qed.

Lemma title_loop_unpolluted `{StringBuiltins} (st : State) (searchTitle : string) :
  unpolluted st ->
  title_loop st searchTitle = resolved (title_matches (books st) searchTitle).
Proof.
  unfold unpolluted, title_loop, inherited_entry. intros ->.
  by destruct (books st !! "reviews").
Qed.





(** The search on the seeded catalog: the four books of unknown author, by
    title. *)
Example performAuthorSearch_unknown :
  (fun r => match r with
            | resolved found => Some (hit_isbn <$> search_books found)
            | rejected _ => None
            end)
    (@performAuthorSearch Latin1.builtins (Sample.env (1 # 2)) initial_state "UNKNOWN")
  = Some ["7"; "6"; "5"; "4"].
Proof. vm_compute. reflexivity. Qed.


(** ** The gate in front of the review routes *)

Lemma app_putReview `{StringBuiltins}
    (e : Env) (st : State) (req : Request) (isbn : string) (a : Authorization) :
  method req = PUT -> path req = ["customer"; "auth"; "review"; isbn] ->
  sessions st !! session_id req = Some a ->
  is_Some (jwt.verify (accessToken a) "access" e) ->
  app e st req = putReview isbn e st req.
Proof.
  intros Hm Hp Hs [user Hv]. unfold app, auth, routes.
  rewrite Hp, Hm. simpl. by rewrite Hs, Hv.
Qed.

Lemma app_deleteReview `{StringBuiltins}
    (e : Env) (st : State) (req : Request) (isbn : string) (a : Authorization) :
  method req = DELETE -> path req = ["customer"; "auth"; "review"; isbn] ->
  sessions st !! session_id req = Some a ->
  is_Some (jwt.verify (accessToken a) "access" e) ->
  app e st req = deleteReview isbn e st req.
Proof.
  intros Hm Hp Hs [user Hv]. unfold app, auth, routes.
  rewrite Hp, Hm. simpl. by rewrite Hs, Hv.
Qed.

(** A session of the service: register, register again, log in, review,
    read, delete, read, and a review attempt from an expired token. *)
Example scenario_statuses :
  @statuses Latin1.builtins initial_state
    [ (Sample.env (1 # 2), Sample.register_alice "pw1");
      (Sample.env (1 # 2), Sample.register_alice "pw1");
      (Sample.env (1 # 2), Sample.login_alice);
      (Sample.env (1 # 2),
       Sample.request PUT ["customer"; "auth"; "review"; "1"] [] [("review", "Loved it")]);
      (Sample.env (1 # 2), Sample.request GET ["review"; "1"] [] []);
      (Sample.env (1 # 2), Sample.request DELETE ["customer"; "auth"; "review"; "1"] [] []);
      (Sample.env (1 # 2), Sample.request GET ["review"; "1"] [] []);
      ({| now := 4600; random := fun _ => 1 # 2 |},
       Sample.request PUT ["customer"; "auth"; "review"; "1"] [] [("review", "Late")]) ]
  = [200; 409; 200; 200; 200; 200; 200; 403].
Proof. vm_compute. reflexivity. Qed.

(** * Further properties of the handlers *)

(** ** What each state-changing handler does to the state *)

Lemma authenticatedUser_spec (us : list User) (name pw : string) :
  authenticatedUser us name pw = true <-> {| username := name; password := pw |} ∈ us.
Proof.
  unfold authenticatedUser. rewrite Nat.ltb_lt.
  set (P := fun user : User => username user = name /\ password user = pw).
  split.
  - intros Hlen. destruct (filter P us) as [|user l] eqn:Hf; [simpl in Hlen; lia|].
    assert (Hin : user ∈ filter P us) by (rewrite Hf; left).
    apply list_elem_of_filter in Hin. destruct Hin as [[Hn Hp] Hin].
    destruct user as [n p]. simpl in *. by subst.
  - intros Hin.
    assert (Hf : {| username := name; password := pw |} ∈ filter P us)
      by (apply list_elem_of_filter; split; [done|exact Hin]).
    destruct (filter P us); [inversion Hf|]. simpl. lia.
Qed.

Lemma login_success e st req :
  status (login e st req).2 = 200 ->
  exists name pw, body req !! "username" = Some name /\ body req !! "password" = Some pw /\
    name <> "" /\ pw <> "" /\ authenticatedUser (users st) name pw = true /\
    (login e st req).1
    = with_sessions st
        (<[session_id req :=
             {| accessToken := jwt.sign name "access" 3600 e; auth_username := name |}]>
           (sessions st)).
Proof.
  unfold login.
  destruct (body req !! "username") as [u|]; [|simpl; discriminate].
  destruct (body req !! "password") as [p|]; [|simpl; discriminate].
  unfold is_empty.
  destruct (bool_decide_reflect (u = "")) as [|Hu]; [simpl; discriminate|].
  destruct (bool_decide_reflect (p = "")) as [|Hp]; [simpl; discriminate|].
  simpl. destruct (authenticatedUser (users st) u p) eqn:Hv; [|simpl; discriminate].
  intros _. exists u, p. done.
Qed.

Lemma login_failure e st req :
  status (login e st req).2 <> 200 -> (login e st req).1 = st.
Proof. unfold login. repeat case_match; simpl; congruence. Qed.

(** What a review written or deleted does to the catalog: nothing, or the
    review map of the addressed book is replaced. *)
Lemma putReview_effect isbn e st req :
  books (putReview isbn e st req).1 = books st \/
  exists a b text,
    sessions st !! session_id req = Some a /\ books st !! isbn = Some b /\
    query req !! "review" = Some text /\ text <> "" /\
    putReview isbn e st req
    = (with_books st
         (<[isbn := with_reviews b (js_set (reviews_of b) (auth_username a) text)]>
            (books st)),
       saved isbn text (auth_username a)).
Proof.
  destruct (sessions st !! session_id req) as [a|] eqn:Hs;
    [|left; unfold putReview; by rewrite Hs].
  destruct (query req !! "review") as [text|] eqn:Hq;
    [|left; unfold putReview; by rewrite Hs, Hq].
  destruct (decide (text = "")) as [->|Hne];
    [left; unfold putReview; by rewrite Hs, Hq|].
  destruct (books st !! isbn) as [b|] eqn:Hb.
  - right. exists a, b, text. split; [done|]. split; [done|]. split; [done|].
    split; [done|]. by apply putReview_success.
  - left. unfold putReview. rewrite Hs, Hq. unfold is_empty.
    rewrite bool_decide_eq_false_2 by done.
    unfold lookup_book. rewrite Hb.
    unfold ensure_reviews, reviews_slot, write_review, store.
    repeat case_match; simplify_eq; reflexivity.
Qed.

Lemma deleteReview_effect isbn e st req :
  books (deleteReview isbn e st req).1 = books st \/
  exists a b,
    sessions st !! session_id req = Some a /\ books st !! isbn = Some b /\
    entry_truthy (prototype st) (reviews_of b) (auth_username a) = true /\
    deleteReview isbn e st req
    = (with_books st
         (<[isbn := with_reviews b (delete (auth_username a) (reviews_of b))]> (books st)),
       deleted isbn (auth_username a)).
Proof.
  destruct (sessions st !! session_id req) as [a|] eqn:Hs;
    [|left; unfold deleteReview; by rewrite Hs].
  destruct (books st !! isbn) as [b|] eqn:Hb.
  - rewrite (deleteReview_own isbn e st req a b Hs Hb).
    destruct (entry_truthy (prototype st) (reviews_of b) (auth_username a)) eqn:Ht;
      [|by left].
    right. by exists a, b.
  - left. unfold deleteReview. rewrite Hs.
    unfold lookup_book. rewrite Hb.
    unfold reviews_slot, has_review, remove_review, store.
    repeat case_match; simplify_eq; reflexivity.
Qed.

(** [Object.prototype] never loses its [reviews]. *)
Lemma store_polluted st w m :
  polluted (prototype st) = true -> polluted (prototype (store st w m)) = true.
Proof. unfold store. intros Hp. repeat case_match; simpl; done. Qed.

Lemma putReview_polluted isbn e st req :
  polluted (prototype st) = true ->
  polluted (prototype (putReview isbn e st req).1) = true.
Proof.
  intros Hp.
  destruct (putReview_state isbn e st req) as [->|(a & t & r & _ & _ & _ & _ & ->)];
    [done|].
  simpl.
  unfold write_review, ensure_reviews.
  repeat case_match; simplify_eq; simpl; auto using store_polluted.
Qed.

Lemma deleteReview_polluted isbn e st req :
  polluted (prototype st) = true ->
  polluted (prototype (deleteReview isbn e st req).1) = true.
Proof.
  intros Hp. unfold deleteReview, uncaught, remove_review.
  repeat case_match; simplify_eq; simpl; auto using store_polluted.
Qed.

(** ** Where the application sends a request *)

Lemma public_users_methods `{StringBuiltins} (m : Method) (p : list string) (h : Handler) :
  public_users m p = Some h ->
  (m = POST /\ h = register) \/
  (m = GET /\ forall e st req, (h e st req).1 = st).
Proof.
  unfold public_users. intros Hr.
  repeat case_match; simplify_eq; auto;
    right; (split; [reflexivity|]); intros e st req;
    auto using listAll_state, getByIsbn_state, searchByAuthor_state,
               searchByTitle_state, getReviews_state.
Qed.

Lemma routes_unfold `{StringBuiltins} (e : Env) (st : State) (req : Request) :
  routes e st req
  = let genl_routes :=
      match public_users (method req) (path req) with
      | Some handler => handler e st req
      | None => (st, respond 404 NotFoundPage)
      end in
    match path req with
    | seg :: rest =>
        if String.eqb seg "customer" then
          match regd_users (method req) rest with
          | Some handler => handler e st req
          | None => genl_routes
          end
        else genl_routes
    | [] => genl_routes
    end.
Proof.
  unfold routes. destruct (path req) as [|seg rest]; [reflexivity|].
  destruct (String.eqb_spec seg "customer") as [->|Hne]; [reflexivity|].
  simpl. repeat case_match; simplify_eq; reflexivity.
Qed.

(** What [app] does with a request is one of: nothing to the state; the
    login; the registration; a review written or deleted behind the gate,
    with a verified credential in the session. *)
Lemma app_cases `{StringBuiltins} (e : Env) (st : State) (req : Request) :
  (app e st req).1 = st \/
  (method req = POST /\ app e st req = login e st req) \/
  (method req = POST /\ app e st req = register e st req) \/
  (exists isbn a, method req = PUT /\ sessions st !! session_id req = Some a /\
     is_Some (jwt.verify (accessToken a) "access" e) /\
     app e st req = putReview isbn e st req) \/
  (exists isbn a, method req = DELETE /\ sessions st !! session_id req = Some a /\
     is_Some (jwt.verify (accessToken a) "access" e) /\
     app e st req = deleteReview isbn e st req).
Proof.
  assert (Hpublic : forall r,
    r = match public_users (method req) (path req) with
        | Some handler => handler e st req
        | None => (st, respond 404 NotFoundPage)
        end ->
    r.1 = st \/ (method req = POST /\ r = register e st req)).
  { intros r ->. destruct (public_users (method req) (path req)) as [h|] eqn:Hh;
      [|by left].
    apply public_users_methods in Hh. destruct Hh as [[Hm ->]|[_ Hh]]; auto. }
  assert (Hroutes :
    (routes e st req).1 = st \/
    (method req = POST /\ path req = ["customer"; "login"] /\
     routes e st req = login e st req) \/
    (method req = POST /\ routes e st req = register e st req) \/
    (exists isbn, method req = PUT /\ path req = ["customer"; "auth"; "review"; isbn] /\
       routes e st req = putReview isbn e st req) \/
    (exists isbn, method req = DELETE /\ path req = ["customer"; "auth"; "review"; isbn] /\
       routes e st req = deleteReview isbn e st req)).
  { rewrite routes_unfold. simpl. destruct (path req) as [|seg rest] eqn:Hp.
    - destruct (Hpublic _ eq_refl) as [Hr|Hr]; auto.
    - destruct (String.eqb_spec seg "customer") as [->|Hne].
      + destruct (regd_users (method req) rest) as [h|] eqn:Hh.
        * apply regd_users_cases in Hh.
          destruct Hh as [(Hm & -> & ->)|[(i & Hm & -> & ->)|(i & Hm & -> & ->)]];
            eauto 10.
        * destruct (Hpublic _ eq_refl) as [Hr|Hr]; auto.
      + destruct (Hpublic _ eq_refl) as [Hr|Hr]; auto. }
  unfold app. destruct (under_auth (path req)) eqn:Hgate.
  - unfold auth. destruct (sessions st !! session_id req) as [a|] eqn:Hs; [|by left].
    destruct (jwt.verify (accessToken a) "access" e) as [user|] eqn:Hv; [|by left].
    destruct Hroutes as [Hr|[(Hm & Hp & Hr)|[Hr|[(i & Hm & Hp & Hr)|(i & Hm & Hp & Hr)]]]];
      auto.
    + right. right. right. left. exists i, a. eauto.
    + right. right. right. right. exists i, a. eauto.
  - destruct Hroutes as [Hr|[(Hm & Hp & Hr)|[Hr|[(i & Hm & Hp & Hr)|(i & Hm & Hp & Hr)]]]];
      auto; rewrite Hp in Hgate; discriminate.
Qed.

(** ** Credentials *)

Lemma authenticatedUser_grows (us more : list User) (name pw : string) :
  authenticatedUser us name pw = true -> authenticatedUser (us ++ more) name pw = true.
Proof.
  rewrite !authenticatedUser_spec. intros Hin. apply elem_of_app. by left.
Qed.

(** X1. A name and password that authenticate belong to a user of the
    directory, so that the name is valid; and when the names of the directory
    are unique, at most one password authenticates a name. *)
Theorem authenticated_user_is_registered (us : list User) (name pw : string) :
  authenticatedUser us name pw = true ->
  isValid us name = true /\
  (NoDup (username <$> us) ->
   forall pw', authenticatedUser us name pw' = true -> pw' = pw).
Proof.
  intros Hauth. split.
  - apply isValid_spec. apply authenticatedUser_spec in Hauth. eauto.
  - intros Hnd pw' Hauth'.
    apply authenticatedUser_spec in Hauth, Hauth'.
    apply list_elem_of_lookup in Hauth as [i Hi], Hauth' as [j Hj].
    assert (i = j) as ->.
    { eapply NoDup_lookup; [exact Hnd| |];
        rewrite list_lookup_fmap; [rewrite Hi|rewrite Hj]; reflexivity. }
    congruence.
Qed.

Lemma authenticated_user_is_registered_witness :
  isValid [Sample.alice] "alice" = true.
Proof.
  refine (proj1 (authenticated_user_is_registered [Sample.alice] "alice" "pw1" _)).
  reflexivity.
Defined.

(** X2. The three outcomes of [login]. A missing or empty field is answered
    400 and a pair that is not in the directory 404, both without any change
    of state; a pair of the directory is answered 200 and the session of the
    request then holds a token for that name, signed with the key of the
    service and expiring 3600 seconds later, nothing else being changed. *)
Theorem login_outcome (e : Env) (st : State) (req : Request) :
  (falsy (body req !! "username") = true \/ falsy (body req !! "password") = true ->
   login e st req = (st, required_reply)) /\
  (forall name pw,
     body req !! "username" = Some name -> body req !! "password" = Some pw ->
     name <> "" -> pw <> "" ->
     ({| username := name; password := pw |} ∉ users st ->
      login e st req
      = (st, respond 404 (Message "Invalid Login. Check username and password"))) /\
     ({| username := name; password := pw |} ∈ users st ->
      login e st req
      = ({| books := books st; users := users st;
            sessions :=
              <[session_id req :=
                  {| accessToken :=
                       {| jwt.data := name; jwt.iat := now e;
                          jwt.exp := now e + 3600; jwt.key := "access" |};
                     auth_username := name |}]> (sessions st);
            prototype := prototype st |},
         respond 200 (Message "User successfully logged in")))).
Proof.
  split.
  - unfold login, required_reply.
    destruct (body req !! "username") as [u|], (body req !! "password") as [p|];
      simpl; unfold is_empty; intros [Hf|Hf]; try done; rewrite Hf; try done.
    by rewrite orb_true_r.
  - intros name pw Hu Hp Hne Hpe. unfold login. rewrite Hu, Hp. unfold is_empty.
    rewrite !bool_decide_eq_false_2 by done. simpl. split; intros Hin.
    + destruct (authenticatedUser (users st) name pw) eqn:Ha; [|reflexivity].
      by apply authenticatedUser_spec in Ha.
    + apply authenticatedUser_spec in Hin. by rewrite Hin.
Qed.

Lemma login_outcome_witness :
  login (Sample.env (1 # 2)) Sample.registered (login_as "alice" "wrong")
  = (Sample.registered,
     respond 404 (Message "Invalid Login. Check username and password")) /\
  status (login (Sample.env (1 # 2)) Sample.registered (login_as "alice" "pw1")).2 = 200.
Proof.
  split.
  - refine (proj1 (proj2 (login_outcome _ Sample.registered (login_as "alice" "wrong"))
                         "alice" "wrong" _ _ _ _) _);
      try reflexivity; try discriminate.
    intros Hin. apply list_elem_of_In in Hin. simpl in Hin.
    destruct Hin as [Hin|[]]. discriminate.
  - rewrite (proj2 (proj2 (login_outcome _ Sample.registered (login_as "alice" "pw1"))
                          "alice" "pw1" eq_refl eq_refl ltac:(discriminate)
                          ltac:(discriminate))
                   ltac:(left)).
    reflexivity.
Defined.

(** X3. Registration then login: once [register] has accepted a name and a
    password, a login with the same two fields is answered 200, right away
    and after any further run of requests. *)
Theorem register_then_login `{StringBuiltins}
    (e : Env) (st : State) (req : Request) (u p : string) :
  body req !! "username" = Some u -> body req !! "password" = Some p ->
  status (register e st req).2 = 200 ->
  forall (rs : list (Env * Request)) (e' : Env) (req' : Request),
    body req' !! "username" = Some u -> body req' !! "password" = Some p ->
    status (login e' (serve (register e st req).1 rs) req').2 = 200.
Proof.
  intros Hu Hp Hok rs e' req' Hu' Hp'.
  destruct (register_success e st req Hok) as (u0 & p0 & Hu0 & Hp0 & Hne & Hpe & _ & Hst).
  assert (u0 = u) as -> by congruence. assert (p0 = p) as -> by congruence.
  destruct (serve_users rs (register e st req).1) as [more Hmore].
  assert (Hauth : authenticatedUser (users (serve (register e st req).1 rs)) u p = true).
  { rewrite Hmore, Hst. simpl. apply authenticatedUser_grows.
    apply authenticatedUser_spec, elem_of_app. right. left. }
  unfold login. rewrite Hu', Hp'. unfold is_empty.
  rewrite !bool_decide_eq_false_2 by done. simpl. by rewrite Hauth.
Qed.

Lemma register_then_login_witness :
  status (login (Sample.env (1 # 2))
            (register (Sample.env (1 # 2)) initial_state (Sample.register_alice "pw1")).1
            (login_as "alice" "pw1")).2 = 200.
Proof.
  refine (@register_then_login Latin1.builtins (Sample.env (1 # 2)) initial_state
            (Sample.register_alice "pw1") "alice" "pw1" _ _ _ [] (Sample.env (1 # 2))
            (login_as "alice" "pw1") _ _); reflexivity.
Defined.

(** ** The gate and the token *)

Lemma verify_sign (payload secret : string) (expiresIn : Z) (e e' : Env) :
  jwt.verify (jwt.sign payload secret expiresIn e) secret e'
  = if now e' <? now e + expiresIn
    then Some (jwt.sign payload secret expiresIn e)
    else None.
Proof.
  unfold jwt.verify, jwt.sign. cbn [jwt.key jwt.exp].
  by rewrite bool_decide_eq_true_2.
Qed.

(** X4. Login then gate: after a login answered 200, a review request of
    the same session is handed to its handler as long as fewer than 3600
    seconds have passed since the login, and from 3600 seconds on the gate
    answers 403 "User not authenticated" and leaves the state as it is. *)
Theorem login_then_gate `{StringBuiltins}
    (e : Env) (st : State) (req : Request)
    (e' : Env) (req' : Request) (isbn : string) :
  status (login e st req).2 = 200 ->
  session_id req' = session_id req ->
  path req' = ["customer"; "auth"; "review"; isbn] ->
  (now e' < now e + 3600 ->
   (method req' = PUT ->
    app e' (login e st req).1 req' = putReview isbn e' (login e st req).1 req') /\
   (method req' = DELETE ->
    app e' (login e st req).1 req' = deleteReview isbn e' (login e st req).1 req')) /\
  (now e + 3600 <= now e' ->
   app e' (login e st req).1 req' = ((login e st req).1, not_authenticated)).
Proof.
  intros Hok Hsid Hp.
  destruct (login_success e st req Hok) as (name & pw & _ & _ & _ & _ & _ & Hst).
  set (a := {| accessToken := jwt.sign name "access" 3600 e; auth_username := name |}).
  assert (Hs : sessions (login e st req).1 !! session_id req' = Some a).
  { rewrite Hst, Hsid. simpl. apply lookup_insert_eq. }
  split.
  - intros Hnow.
    assert (Hv : is_Some (jwt.verify (accessToken a) "access" e')).
    { unfold a. cbn [accessToken]. rewrite verify_sign.
      destruct (Z.ltb_spec (now e') (now e + 3600)); [eauto|lia]. }
    split; intros Hm.
    + by apply (app_putReview e' _ req' isbn a).
    + by apply (app_deleteReview e' _ req' isbn a).
  - intros Hnow. unfold app, auth. rewrite Hp.
    cbn [under_auth]. rewrite Hs. unfold a. cbn [accessToken]. rewrite verify_sign.
    destruct (Z.ltb_spec (now e') (now e + 3600)); [lia|reflexivity].
Qed.

Lemma login_then_gate_witness :
  @app Latin1.builtins {| now := 4600; random := fun _ => 1 # 2 |}
       (login (Sample.env (1 # 2)) Sample.registered Sample.login_alice).1
       (Sample.request PUT ["customer"; "auth"; "review"; "1"] [] [("review", "Late")])
  = ((login (Sample.env (1 # 2)) Sample.registered Sample.login_alice).1,
     not_authenticated).
Proof.
  refine (proj2 (@login_then_gate Latin1.builtins (Sample.env (1 # 2)) Sample.registered
                   Sample.login_alice {| now := 4600; random := fun _ => 1 # 2 |}
                   (Sample.request PUT ["customer"; "auth"; "review"; "1"] []
                                   [("review", "Late")]) "1" _ _ _) _);
    reflexivity.
Defined.

(** X5. Behind the gate nothing happens without a verified credential: a
    request on a path under [/customer/auth/], whatever its method, whose
    session holds no credential or one that does not verify, is answered 403
    and leaves the state as it is. *)
Theorem gate_blocks_unverified `{StringBuiltins} (e : Env) (st : State) (req : Request) :
  under_auth (path req) = true ->
  (forall a, sessions st !! session_id req = Some a ->
             jwt.verify (accessToken a) "access" e = None) ->
  (app e st req).1 = st /\
  status (app e st req).2 = 403 /\
  (app e st req).2
  = match sessions st !! session_id req with
    | Some _ => not_authenticated
    | None => not_logged_in
    end.
Proof.
  intros Hgate Hbad. unfold app, auth. rewrite Hgate.
  destruct (sessions st !! session_id req) as [a|]; [|done].
  by rewrite (Hbad a eq_refl).
Qed.

Lemma gate_blocks_unverified_witness :
  (@app Latin1.builtins (Sample.env (1 # 2)) Sample.registered
        (Sample.request DELETE ["customer"; "auth"; "review"; "1"] [] [])).1
  = Sample.registered.
Proof.
  refine (proj1 (@gate_blocks_unverified Latin1.builtins _ Sample.registered
                   (Sample.request DELETE ["customer"; "auth"; "review"; "1"] [] [])
                   _ _)).
  - reflexivity.
  - intros a Ha. vm_compute in Ha. discriminate.
Defined.

(** X6. Reading is safe: whatever its path, its session and the draws, a
    [GET] request leaves the catalog, the directory and the sessions as they
    are. *)
Theorem get_is_read_only `{StringBuiltins} (e : Env) (st : State) (req : Request) :
  method req = GET -> (app e st req).1 = st.
Proof.
  intros Hm.
  destruct (app_cases e st req)
    as [Hr|[(Hm' & _)|[(Hm' & _)|[(i & a & Hm' & _)|(i & a & Hm' & _)]]]];
    [exact Hr|congruence..].
Qed.

Lemma get_is_read_only_witness :
  (@app Latin1.builtins (Sample.env (1 # 2)) Sample.logged_in
        (Sample.request GET ["customer"; "auth"; "review"; "1"] [] [("review", "x")])).1
  = Sample.logged_in.
Proof.
  refine (@get_is_read_only Latin1.builtins _ Sample.logged_in
            (Sample.request GET ["customer"; "auth"; "review"; "1"] [] [("review", "x")])
            _).
  reflexivity.
Defined.

(** ** Invariants of the service *)

Lemma register_effect e st req :
  (register e st req).1 = st \/
  exists u p, u <> "" /\ p <> "" /\ isValid (users st) u = false /\
    (register e st req).1
    = with_users st (users st ++ [{| username := u; password := p |}]).
Proof.
  unfold register.
  destruct (body req !! "username") as [u|]; [|by left].
  destruct (body req !! "password") as [p|]; [|by left].
  unfold is_empty.
  destruct (bool_decide_reflect (u = "")) as [|Hu]; [by left|].
  destruct (bool_decide_reflect (p = "")) as [|Hp]; [by left|].
  simpl. destruct (isValid (users st) u) eqn:Hv; [by left|].
  right. exists u, p. done.
Qed.

Lemma login_effect e st req :
  (login e st req).1 = st \/
  exists name,
    isValid (users st) name = true /\
    (login e st req).1
    = with_sessions st
        (<[session_id req :=
             {| accessToken := jwt.sign name "access" 3600 e; auth_username := name |}]>
           (sessions st)).
Proof.
  destruct (Z.eq_dec (status (login e st req).2) 200) as [Hok|Hko].
  - right. destruct (login_success e st req Hok) as (name & pw & _ & _ & _ & _ & Ha & Hst).
    exists name. split; [|exact Hst].
    apply isValid_spec. apply authenticatedUser_spec in Ha. eauto.
  - left. by apply login_failure.
Qed.

Lemma same_catalog_refl (bs : gmap string Book) : same_catalog bs bs.
Proof. intros isbn. by destruct (bs !! isbn). Qed.

Lemma same_catalog_trans (bs1 bs2 bs3 : gmap string Book) :
  same_catalog bs1 bs2 -> same_catalog bs2 bs3 -> same_catalog bs1 bs3.
Proof.
  intros H12 H23 isbn. specialize (H12 isbn). specialize (H23 isbn).
  destruct (bs1 !! isbn), (bs2 !! isbn), (bs3 !! isbn); try done.
  destruct H12, H23. split; congruence.
Qed.

Lemma same_catalog_reviews (bs : gmap string Book) (isbn : string) (b : Book)
    (rs : gmap string string) :
  bs !! isbn = Some b -> same_catalog bs (<[isbn := with_reviews b rs]> bs).
Proof.
  intros Hb i. destruct (decide (i = isbn)) as [->|Hne].
  - by rewrite lookup_insert_eq, Hb.
  - rewrite lookup_insert_ne by done. by destruct (bs !! i).
Qed.

Lemma app_same_catalog `{StringBuiltins} e st req :
  same_catalog (books st) (books (app e st req).1).
Proof.
  destruct (app_cases e st req)
    as [Hr|[(_ & Hr)|[(_ & Hr)|[(i & a & _ & _ & _ & Hr)|(i & a & _ & _ & _ & Hr)]]]];
    rewrite Hr; clear Hr.
  - apply same_catalog_refl.
  - destruct (login_effect e st req) as [->|(name & _ & ->)]; apply same_catalog_refl.
  - destruct (register_effect e st req) as [->|(u & p & _ & _ & _ & ->)];
      apply same_catalog_refl.
  - destruct (putReview_effect i e st req) as [->|(a' & b & t & _ & Hb & _ & _ & ->)];
      [apply same_catalog_refl|]. by apply same_catalog_reviews.
  - destruct (deleteReview_effect i e st req) as [->|(a' & b & _ & Hb & _ & ->)];
      [apply same_catalog_refl|]. by apply same_catalog_reviews.
Qed.

Lemma app_polluted `{StringBuiltins} e st req :
  polluted (prototype st) = true -> polluted (prototype (app e st req).1) = true.
Proof.
  intros Hp.
  destruct (app_cases e st req)
    as [Hr|[(_ & Hr)|[(_ & Hr)|[(i & a & _ & _ & _ & Hr)|(i & a & _ & _ & _ & Hr)]]]];
    rewrite Hr; clear Hr.
  - exact Hp.
  - by destruct (login_effect e st req) as [->|(name & _ & ->)].
  - by destruct (register_effect e st req) as [->|(u & p & _ & _ & _ & ->)].
  - by apply putReview_polluted.
  - by apply deleteReview_polluted.
Qed.

Lemma lookup_book_is_Some (st : State) (isbn : string) :
  is_Some (lookup_book st isbn) <->
  is_Some (books st !! isbn) \/ provides (prototype st) isbn = true.
Proof.
  pose proof (lookup_book_None st isbn) as Hnone.
  destruct (lookup_book st isbn) as [t|].
  - split; [|eauto]. intros _.
    destruct (books st !! isbn) as [b|]; [left; eauto|].
    destruct (provides (prototype st) isbn); [by right|].
    by specialize (proj2 Hnone (conj eq_refl eq_refl)).
  - destruct (proj1 Hnone eq_refl) as [Hb Hp]. rewrite Hb, Hp.
    split; [by intros [? ?]|]. intros [[? ?]|?]; done.
Qed.

(** X7. The catalog is fixed: along any run of requests the own entries of
    [books] keep their ids, and every book keeps its author and its title;
    only review maps change. What [books[isbn]] finds is fixed as well, but
    for the id [reviews], which names an object once a review was written at
    the id [__proto__]: an id that names something keeps naming something,
    and no id other than [reviews] starts naming something. *)
Theorem catalog_is_fixed `{StringBuiltins} (rs : list (Env * Request)) (st : State) :
  same_catalog (books st) (books (serve st rs)) /\
  dom (books (serve st rs)) = dom (books st) /\
  (forall isbn, is_Some (lookup_book st isbn) ->
                is_Some (lookup_book (serve st rs) isbn)) /\
  (forall isbn, isbn <> "reviews" ->
     is_Some (lookup_book (serve st rs) isbn) -> is_Some (lookup_book st isbn)).
Proof.
  assert (Hsame : same_catalog (books st) (books (serve st rs))).
  { revert st. induction rs as [|[e req] rs IH]; intros st; simpl.
    - apply same_catalog_refl.
    - eapply same_catalog_trans; [apply app_same_catalog|apply IH]. }
  assert (Hpol : polluted (prototype st) = true ->
                 polluted (prototype (serve st rs)) = true).
  { revert st Hsame. induction rs as [|[e req] rs IH]; intros st _ Hp; simpl;
      [exact Hp|].
    apply IH; [|by apply app_polluted].
    clear. generalize (app e st req).1. intros st'. revert st'.
    induction rs as [|[e' req'] rs IH]; intros st'; simpl.
    - apply same_catalog_refl.
    - eapply same_catalog_trans; [apply app_same_catalog|apply IH]. }
  assert (Hown : forall isbn,
            is_Some (books (serve st rs) !! isbn) <-> is_Some (books st !! isbn)).
  { intros isbn. specialize (Hsame isbn).
    destruct (books st !! isbn), (books (serve st rs) !! isbn);
      first [done | split; eauto | split; intros [? ?]; done]. }
  split; [exact Hsame|]. split; [|split].
  - apply set_eq. intros isbn. rewrite !elem_of_dom. apply Hown.
  - intros isbn. rewrite !lookup_book_is_Some, Hown. intros [Hb|Hp]; [by left|].
    right. unfold provides in *.
    destruct (bool_decide (isbn = "__proto__")); [done|].
    destruct (is_function_member isbn); [done|]. simpl in *.
    destruct (bool_decide (isbn = "reviews")); [|done]. simpl in *. by apply Hpol.
  - intros isbn Hne. rewrite !lookup_book_is_Some, Hown. intros [Hb|Hp]; [by left|].
    right. unfold provides in *. rewrite (bool_decide_eq_false_2 (isbn = "reviews")) in *
      by done.
    exact Hp.
Qed.

(** A review written at the id [__proto__] leaves the catalog as it was and
    makes the id [reviews] name the object that holds the review. *)
Example reviews_id_named_after_pollution :
  books (@serve Latin1.builtins Sample.logged_in
           [(Sample.env (1 # 2), put_review "__proto__" "Loved it")]) = seeded_books /\
  lookup_book Sample.logged_in "reviews" = None /\
  lookup_book (@serve Latin1.builtins Sample.logged_in
                 [(Sample.env (1 # 2), put_review "__proto__" "Loved it")]) "reviews"
  = Some (shared_reviews {[ "alice" := "Loved it" ]}).
Proof. vm_compute. repeat split; reflexivity. Qed.

Lemma app_unique_usernames `{StringBuiltins} e st req :
  unique_usernames st -> unique_usernames (app e st req).1.
Proof.
  intros Hnd.
  destruct (app_cases e st req)
    as [Hr|[(_ & Hr)|[(_ & Hr)|[(i & a & _ & _ & _ & Hr)|(i & a & _ & _ & _ & Hr)]]]];
    rewrite Hr; clear Hr.
  - exact Hnd.
  - by destruct (login_effect e st req) as [->|(name & _ & ->)].
  - destruct (register_effect e st req) as [->|(u & p & _ & _ & Hv & ->)]; [exact Hnd|].
    unfold unique_usernames. simpl. rewrite fmap_app. simpl.
    apply NoDup_app. split; [exact Hnd|split; [|apply NoDup_singleton]].
    intros name Hin Hu. apply list_elem_of_singleton in Hu. subst name.
    apply list_elem_of_fmap in Hin as (user & Hname & Hin).
    assert (isValid (users st) u = true) by (apply isValid_spec; eauto).
    congruence.
  - unfold unique_usernames. by rewrite putReview_users_eq.
  - unfold unique_usernames. by rewrite deleteReview_users_eq.
Qed.

(** X8. User names stay unique: when no two users of the directory share a
    name, no run of requests makes two users share one, since [register]
    pushes a user only after [isValid] has rejected the name. *)
Theorem usernames_stay_unique `{StringBuiltins} (rs : list (Env * Request)) (st : State) :
  unique_usernames st -> unique_usernames (serve st rs).
Proof.
  revert st. induction rs as [|[e req] rs IH]; intros st Hnd; simpl; [exact Hnd|].
  by apply IH, app_unique_usernames.
Qed.

Lemma usernames_stay_unique_witness :
  unique_usernames
    (@serve Latin1.builtins initial_state
       [(Sample.env (1 # 2), Sample.register_alice "pw1");
        (Sample.env (1 # 2), Sample.register_alice "pw2")]).
Proof.
  refine (@usernames_stay_unique Latin1.builtins _ initial_state _).
  unfold unique_usernames. simpl. constructor.
Defined.

Lemma sessions_registered_users (st st' : State) :
  users_pushed st st' -> sessions st' = sessions st ->
  sessions_registered st -> sessions_registered st'.
Proof.
  intros [more Hu] Hs Hinv sid a Ha. rewrite Hs in Ha.
  destruct (Hinv sid a Ha) as (Hv & Hd & Hk).
  split; [|done]. rewrite Hu. by apply isValid_grows.
Qed.

Lemma app_sessions_registered `{StringBuiltins} e st req :
  sessions_registered st -> sessions_registered (app e st req).1.
Proof.
  intros Hinv.
  destruct (app_cases e st req)
    as [Hr|[(_ & Hr)|[(_ & Hr)|[(i & a & _ & _ & _ & Hr)|(i & a & _ & _ & _ & Hr)]]]];
    rewrite Hr; clear Hr.
  - exact Hinv.
  - destruct (login_effect e st req) as [->|(name & Hv & ->)]; [exact Hinv|].
    intros sid a. simpl. destruct (decide (sid = session_id req)) as [->|Hne].
    + rewrite lookup_insert_eq. intros [= <-]. done.
    + rewrite lookup_insert_ne by done. apply Hinv.
  - eapply sessions_registered_users; [apply register_users| |exact Hinv].
    by destruct (register_effect e st req) as [->|(u & p & _ & _ & _ & ->)].
  - eapply sessions_registered_users; [apply putReview_users| |exact Hinv].
    apply putReview_sessions_eq.
  - eapply sessions_registered_users; [apply deleteReview_users| |exact Hinv].
    apply deleteReview_sessions_eq.
Qed.

(** X9. Sessions belong to users: when every stored credential names a user
    of the directory, with a token that carries this name and is signed with
    the key of the service, the same holds after any run of requests. *)
Theorem sessions_stay_registered `{StringBuiltins}
    (rs : list (Env * Request)) (st : State) :
  sessions_registered st -> sessions_registered (serve st rs).
Proof.
  revert st. induction rs as [|[e req] rs IH]; intros st Hinv; simpl; [exact Hinv|].
  by apply IH, app_sessions_registered.
Qed.

Lemma initial_sessions_registered : sessions_registered initial_state.
Proof. intros sid a Ha. simpl in Ha. by rewrite lookup_empty in Ha. Qed.

Lemma sessions_stay_registered_witness :
  sessions_registered
    (@serve Latin1.builtins initial_state
       [(Sample.env (1 # 2), Sample.register_alice "pw1");
        (Sample.env (1 # 2), Sample.login_alice)]).
Proof.
  refine (@sessions_stay_registered Latin1.builtins _ initial_state _).
  intros sid a Ha. simpl in Ha. by rewrite lookup_empty in Ha.
Defined.

(** ** Reviews: overwriting, deleting, and whose they are *)

(** X11. Last write wins: two reviews written in a row on the same book from
    the same session leave the state that the second alone would have left;
    in particular writing the same review twice is writing it once. *)
Theorem putReview_last_write_wins
    (isbn : string) (e1 e2 : Env) (st : State) (req1 req2 : Request)
    (a : Authorization) (b : Book) (t1 t2 : string) :
  sessions st !! session_id req1 = Some a -> session_id req2 = session_id req1 ->
  books st !! isbn = Some b ->
  query req1 !! "review" = Some t1 -> t1 <> "" ->
  query req2 !! "review" = Some t2 -> t2 <> "" ->
  putReview isbn e2 (putReview isbn e1 st req1).1 req2 = putReview isbn e2 st req2.
Proof.
  intros Hs Hsid Hb Hq1 Hne1 Hq2 Hne2.
  rewrite (putReview_success isbn e1 st req1 a b t1 Hs Hq1 Hne1 Hb). simpl.
  rewrite <- Hsid in Hs.
  rewrite (putReview_success isbn e2 st req2 a b t2 Hs Hq2 Hne2 Hb).
  erewrite putReview_success;
    [|exact Hs|exact Hq2|exact Hne2|simpl; apply lookup_insert_eq].
  simpl. unfold with_books, with_reviews, reviews_of. simpl.
  by rewrite js_set_twice, !insert_insert_eq.
Qed.

Lemma putReview_last_write_wins_witness :
  putReview "1" (Sample.env (1 # 2))
    (putReview "1" (Sample.env (1 # 2)) Sample.logged_in
       (Sample.request PUT ["customer"; "auth"; "review"; "1"] [] [("review", "Good")])).1
    (Sample.request PUT ["customer"; "auth"; "review"; "1"] [] [("review", "Great")])
  = putReview "1" (Sample.env (1 # 2)) Sample.logged_in
      (Sample.request PUT ["customer"; "auth"; "review"; "1"] [] [("review", "Great")]).
Proof.
  refine (putReview_last_write_wins "1" _ _ Sample.logged_in _ _ Sample.alice_session
            (seed "Chinua Achebe" "Things Fall Apart") "Good" "Great" _ _ _ _ _ _ _);
    try reflexivity; discriminate.
Defined.

(** X12. Deleting a review: when the book carries a non-empty review by the
    user of the session, [deleteReview] answers 200; afterwards the book has
    no entry for that user and the same entries for everybody else, the same
    author and title, and the other books, the directory, the sessions and
    what hangs on [Object.prototype] are as before. Deleting again is
    answered 404 "Review not found for this user" when the user's name is
    not a property that [Object.prototype] provides, and 200 when it is. *)
Theorem deleteReview_removes
    (isbn : string) (e e' : Env) (st : State) (req : Request)
    (a : Authorization) (b : Book) (text : string) :
  sessions st !! session_id req = Some a -> books st !! isbn = Some b ->
  reviews_of b !! auth_username a = Some text -> text <> "" ->
  (deleteReview isbn e st req).2 = deleted isbn (auth_username a) /\
  (exists b',
     books (deleteReview isbn e st req).1 !! isbn = Some b' /\
     author b' = author b /\ title b' = title b /\
     reviews_of b' !! auth_username a = None /\
     forall other, other <> auth_username a ->
       reviews_of b' !! other = reviews_of b !! other) /\
  (forall isbn', isbn' <> isbn ->
     books (deleteReview isbn e st req).1 !! isbn' = books st !! isbn') /\
  users (deleteReview isbn e st req).1 = users st /\
  sessions (deleteReview isbn e st req).1 = sessions st /\
  prototype (deleteReview isbn e st req).1 = prototype st /\
  (provides (prototype st) (auth_username a) = false ->
   deleteReview isbn e' (deleteReview isbn e st req).1 req
   = ((deleteReview isbn e st req).1, review_not_found)) /\
  (provides (prototype st) (auth_username a) = true ->
   (deleteReview isbn e' (deleteReview isbn e st req).1 req).2
   = deleted isbn (auth_username a)).
Proof.
  intros Hs Hb Hr Hne.
  rewrite (deleteReview_own isbn e st req a b Hs Hb).
  assert (Ht : entry_truthy (prototype st) (reviews_of b) (auth_username a) = true).
  { unfold entry_truthy. rewrite Hr. unfold is_empty.
    by rewrite bool_decide_eq_false_2. }
  rewrite Ht. simpl.
  set (b1 := with_reviews b (delete (auth_username a) (reviews_of b))).
  assert (Hagain : forall e', deleteReview isbn e' (with_books st (<[isbn := b1]> (books st))) req
            = if provides (prototype st) (auth_username a)
              then (with_books (with_books st (<[isbn := b1]> (books st)))
                      (<[isbn := with_reviews b1 (delete (auth_username a) (reviews_of b1))]>
                         (<[isbn := b1]> (books st))),
                    deleted isbn (auth_username a))
              else (with_books st (<[isbn := b1]> (books st)), review_not_found)).
  { intros e0. rewrite (deleteReview_own isbn e0 _ req a b1);
      [|exact Hs|simpl; apply lookup_insert_eq].
    simpl. unfold entry_truthy. unfold reviews_of at 1. simpl.
    by rewrite lookup_delete_eq. }
  split; [reflexivity|split; [|split; [|split; [reflexivity|split; [reflexivity|
    split; [reflexivity|split]]]]]].
  - exists b1. split; [apply lookup_insert_eq|]. simpl.
    split; [reflexivity|split; [reflexivity|split]].
    + unfold reviews_of at 1. simpl. apply lookup_delete_eq.
    + intros other Hother. unfold reviews_of at 1. simpl. by apply lookup_delete_ne.
  - intros isbn' Hother. by apply lookup_insert_ne.
  - intros Hp. by rewrite Hagain, Hp.
  - intros Hp. by rewrite Hagain, Hp.
Qed.

Lemma deleteReview_removes_witness :
  (deleteReview "1" (Sample.env (1 # 2))
     (putReview "1" (Sample.env (1 # 2)) Sample.logged_in
        (Sample.request PUT ["customer"; "auth"; "review"; "1"] []
                        [("review", "Loved it")])).1
     (Sample.request DELETE ["customer"; "auth"; "review"; "1"] [] [])).2
  = deleted "1" "alice".
Proof.
  refine (proj1 (deleteReview_removes "1" _ (Sample.env (1 # 2)) _ _ Sample.alice_session
            (with_reviews (seed "Chinua Achebe" "Things Fall Apart")
                          {[ "alice" := "Loved it" ]})
            "Loved it" _ _ _ _)); try reflexivity; discriminate.
Defined.

(** Deleting twice under the name [constructor]: the second deletion finds
    the function that [Object.prototype] provides and is answered 200. *)
Example deleteReview_twice_inherited_name :
  let st := {| books := <["1" := with_reviews (seed "Chinua Achebe" "Things Fall Apart")
                                              {[ "constructor" := "Loved it" ]}]>
                          seeded_books;
               users := [{| username := "constructor"; password := "pw" |}];
               sessions := {[ "sid-1" := {| accessToken :=
                                              jwt.sign "constructor" "access" 3600
                                                       (Sample.env (1 # 2));
                                            auth_username := "constructor" |} ]};
               prototype := pristine |} in
  let req := Sample.request DELETE ["customer"; "auth"; "review"; "1"] [] [] in
  statuses (H := Latin1.builtins) st [(Sample.env (1 # 2), req); (Sample.env (1 # 2), req)]
  = [200; 200].
Proof. vm_compute. reflexivity. Qed.

(** X13. Writing then deleting: after a review written from a session, a
    deletion from the same session is answered 200, and the review map of
    the book is then the one from before the writing without the entry of
    the user; the rest of the state is as it was before the writing. *)
Theorem putReview_then_deleteReview
    (isbn : string) (e e' : Env) (st : State) (req req' : Request)
    (a : Authorization) (b : Book) (text : string) :
  sessions st !! session_id req = Some a -> session_id req' = session_id req ->
  query req !! "review" = Some text -> text <> "" ->
  books st !! isbn = Some b ->
  deleteReview isbn e' (putReview isbn e st req).1 req'
  = (with_books st
       (<[isbn := with_reviews b (delete (auth_username a) (reviews_of b))]> (books st)),
     deleted isbn (auth_username a)).
Proof.
  intros Hs Hsid Hq Hne Hb.
  rewrite (putReview_success isbn e st req a b text Hs Hq Hne Hb). simpl.
  set (b1 := with_reviews b (js_set (reviews_of b) (auth_username a) text)).
  rewrite (deleteReview_own isbn e' _ req' a b1);
    [|simpl; rewrite Hsid; exact Hs|simpl; apply lookup_insert_eq].
  simpl. unfold reviews_of at 1. simpl.
  rewrite (entry_truthy_js_set _ _ _ _ Hne).
  unfold with_books, with_reviews, reviews_of. simpl.
  by rewrite insert_insert_eq, delete_js_set.
Qed.

Lemma putReview_then_deleteReview_witness :
  deleteReview "1" (Sample.env (1 # 2))
    (putReview "1" (Sample.env (1 # 2)) Sample.logged_in
       (Sample.request PUT ["customer"; "auth"; "review"; "1"] []
                       [("review", "Loved it")])).1
    (Sample.request DELETE ["customer"; "auth"; "review"; "1"] [] [])
  = (with_books Sample.logged_in
       (<["1" := with_reviews (seed "Chinua Achebe" "Things Fall Apart")
                              (delete "alice" ∅)]> seeded_books),
     deleted "1" "alice").
Proof.
  refine (putReview_then_deleteReview "1" _ _ Sample.logged_in _ _ Sample.alice_session
            (seed "Chinua Achebe" "Things Fall Apart") "Loved it" _ _ _ _ _);
    try reflexivity; discriminate.
Defined.

(** X14. Sessions are isolated: a request never touches the credential of
    another session, and the session store changes only when the request is
    a login that is answered 200. *)
Theorem sessions_are_isolated `{StringBuiltins} (e : Env) (st : State) (req : Request) :
  (forall sid, sid <> session_id req ->
     sessions (app e st req).1 !! sid = sessions st !! sid) /\
  (sessions (app e st req).1 = sessions st \/
   (method req = POST /\ app e st req = login e st req /\
    status (app e st req).2 = 200)).
Proof.
  assert (Hlogin : forall sid, sid <> session_id req ->
            sessions (login e st req).1 !! sid = sessions st !! sid).
  { intros sid Hne. destruct (login_effect e st req) as [->|(name & _ & ->)]; [done|].
    simpl. by apply lookup_insert_ne. }
  destruct (app_cases e st req)
    as [Hr|[(Hm & Hr)|[(_ & Hr)|[(i & a & _ & _ & _ & Hr)|(i & a & _ & _ & _ & Hr)]]]].
  - rewrite Hr. auto.
  - rewrite Hr. split; [exact Hlogin|].
    destruct (Z.eq_dec (status (login e st req).2) 200) as [Hok|Hko]; [by right|].
    left. by rewrite login_failure.
  - rewrite Hr.
    destruct (register_effect e st req) as [->|(u & p & _ & _ & _ & ->)]; auto.
  - rewrite Hr, putReview_sessions_eq. auto.
  - rewrite Hr, deleteReview_sessions_eq. auto.
Qed.

Lemma sessions_are_isolated_witness :
  sessions (@app Latin1.builtins (Sample.env (1 # 2)) Sample.logged_in
              {| method := POST; path := ["customer"; "login"];
                 body := Sample.fields [("username", "alice"); ("password", "pw1")];
                 query := ∅; session_id := "sid-2" |}).1 !! "sid-1"
  = Some Sample.alice_session.
Proof.
  refine (proj1 (@sessions_are_isolated Latin1.builtins _ Sample.logged_in _) "sid-1" _).
  discriminate.
Defined.



(** X16. The directory is append-only: after any run of requests the user
    array is the former one with users pushed at its end, so that a name that
    was valid stays valid and a name and password that authenticated still
    do. *)
Theorem directory_is_append_only `{StringBuiltins}
    (rs : list (Env * Request)) (st : State) :
  (exists more, users (serve st rs) = (users st ++ more)%list) /\
  (forall name, isValid (users st) name = true ->
                isValid (users (serve st rs)) name = true) /\
  (forall name pw, authenticatedUser (users st) name pw = true ->
                   authenticatedUser (users (serve st rs)) name pw = true).
Proof.
  destruct (serve_users rs st) as [more Hmore].
  split; [by exists more|]. rewrite Hmore. split.
  - intros name. apply isValid_grows.
  - intros name pw. apply authenticatedUser_grows.
Qed.

Lemma directory_is_append_only_witness :
  authenticatedUser
    (users (@serve Latin1.builtins Sample.registered
              [(Sample.env (1 # 2), Sample.register_alice "other");
               (Sample.env (1 # 2), login_as "alice" "wrong")]))
    "alice" "pw1" = true.
Proof.
  refine (proj2 (proj2 (@directory_is_append_only Latin1.builtins _ Sample.registered))
                "alice" "pw1" _).
  reflexivity.
Defined.

(** ** The other public routes *)

(** X17. Looking a book up by its id never changes the state. When the draw
    does not exceed 0.98 the answer is 200 with the book stored at the id
    when the catalog has the id, and 404 with the id echoed exactly when the
    id is neither in the catalog nor a property that [Object.prototype]
    provides; when the draw exceeds 0.98 the answer is 500 with the
    simulated timeout. *)
Theorem getByIsbn_outcome (isbn : string) (e : Env) (st : State) (req : Request) :
  (getByIsbn isbn e st req).1 = st /\
  ((random e 0 <= d0_98)%Q ->
   (forall b, books st !! isbn = Some b ->
      getByIsbn isbn e st req
      = (st, respond 200
               (OneBook ("Book with ISBN " ++ isbn
                           ++ " retrieved successfully using Promise Callbacks")
                        "promise-callbacks" isbn (sent_book b)))) /\
   (books st !! isbn = None -> provides (prototype st) isbn = false ->
      getByIsbn isbn e st req
      = (st, respond 404
               (Missing ("Book with ISBN " ++ isbn ++ " not found using Promise Callbacks")
                        "promise-callbacks" isbn))) /\
   (status (getByIsbn isbn e st req).2 = 404 <->
    books st !! isbn = None /\ provides (prototype st) isbn = false)) /\
  (~ (random e 0 <= d0_98)%Q ->
   getByIsbn isbn e st req
   = (st, respond 500
            (Failure ("Error retrieving book with ISBN " ++ isbn
                        ++ " using Promise Callbacks")
                     "promise-callbacks" (Some isbn) "Simulated network timeout"))).
Proof.
  split; [apply getByIsbn_state|].
  unfold getByIsbn, getBookByIsbnPromise. split.
  - intros Hd. apply exceeds_false in Hd. rewrite Hd. split; [|split].
    + intros b Hb. by rewrite (lookup_book_own st isbn b Hb).
    + intros Hb Hp. by rewrite (proj2 (lookup_book_None st isbn) (conj Hb Hp)).
    + rewrite <- lookup_book_None.
      destruct (lookup_book st isbn) as [t|]; simpl; split; done.
  - intros Hd. apply exceeds_true in Hd. by rewrite Hd.
Qed.

Lemma getByIsbn_outcome_witness :
  status (getByIsbn "10" (Sample.env (1 # 2)) initial_state
                    (Sample.request GET ["isbn"; "10"] [] [])).2 = 200 /\
  status (getByIsbn "11" (Sample.env (1 # 2)) initial_state
                    (Sample.request GET ["isbn"; "11"] [] [])).2 = 404 /\
  status (getByIsbn "10" (Sample.env (99 # 100)) initial_state
                    (Sample.request GET ["isbn"; "10"] [] [])).2 = 500.
Proof.
  split; [|split].
  - rewrite (proj1 (proj1 (proj2 (getByIsbn_outcome "10" (Sample.env (1 # 2)) initial_state
                                    (Sample.request GET ["isbn"; "10"] [] [])))
                          ltac:(vm_compute; discriminate))
                   (seed "Samuel Beckett" "Molloy, Malone Dies, The Unnamable, the trilogy")
                   eq_refl).
    reflexivity.
  - rewrite (proj1 (proj2 (proj1 (proj2 (getByIsbn_outcome "11" (Sample.env (1 # 2))
                                           initial_state
                                           (Sample.request GET ["isbn"; "11"] [] [])))
                                 ltac:(vm_compute; discriminate)))
                   eq_refl eq_refl).
    reflexivity.
  - rewrite (proj2 (proj2 (getByIsbn_outcome "10" (Sample.env (99 # 100)) initial_state
                             (Sample.request GET ["isbn"; "10"] [] [])))
                   ltac:(vm_compute; intros Hle; by apply Hle)).
    reflexivity.
Defined.

(** The ids [constructor] and [__proto__] are not in the catalog and are
    answered 200: the first with no book in the body, a function having no
    JSON form, the second with [Object.prototype] as the book. *)
Example getByIsbn_inherited_ids :
  (getByIsbn "constructor" (Sample.env (1 # 2)) initial_state
             (Sample.request GET ["isbn"; "constructor"] [] [])).2
  = respond 200
      (OneBook "Book with ISBN constructor retrieved successfully using Promise Callbacks"
               "promise-callbacks" "constructor" sent_nothing) /\
  (getByIsbn "__proto__" (Sample.env (1 # 2)) initial_state
             (Sample.request GET ["isbn"; "__proto__"] [] [])).2
  = respond 200
      (OneBook "Book with ISBN __proto__ retrieved successfully using Promise Callbacks"
               "promise-callbacks" "__proto__" (sent_prototype None)).
Proof. vm_compute. split; reflexivity. Qed.

(** ** The searches on a catalog that is enumerated by its own entries *)

Lemma elem_of_filter_own_entries {A : Type} (keep : string * A -> bool)
    (m : gmap string A) (k : string) (x : A) :
  (k, x) ∈ List.filter keep (own_entries m) <-> m !! k = Some x /\ keep (k, x) = true.
Proof.
  rewrite list_elem_of_In, filter_In, <- list_elem_of_In, elem_of_own_entries.
  reflexivity.
Qed.


Lemma filter_own_entries_nil {A : Type} (keep : string * A -> bool) (m : gmap string A) :
  (forall k x, m !! k = Some x -> keep (k, x) <> true) ->
  List.filter keep (own_entries m) = [].
Proof.
  intros Hnone. destruct (List.filter keep (own_entries m)) as [|[k x] l] eqn:Hl;
    [reflexivity|].
  assert (Hin : (k, x) ∈ List.filter keep (own_entries m)) by (rewrite Hl; left).
  apply elem_of_filter_own_entries in Hin as [Hk Hx]. destruct (Hnone k x Hk Hx).
Qed.

Lemma filter_own_entries_nil_inv {A : Type} (keep : string * A -> bool)
    (m : gmap string A) :
  List.filter keep (own_entries m) = [] ->
  forall k x, m !! k = Some x -> keep (k, x) <> true.
Proof.
  intros Hnil k x Hk Hx.
  assert (Hin : (k, x) ∈ List.filter keep (own_entries m))
    by (by apply elem_of_filter_own_entries).
  rewrite Hnil in Hin. inversion Hin.
Qed.

Lemma array_sort_nil_inv {A : Type} (cmp : A -> A -> Z) (l : list A) :
  array_sort cmp l = [] -> l = [].
Proof.
  intros Hnil. pose proof (array_sort_perm cmp l) as Hperm. rewrite Hnil in Hperm.
  by apply Permutation_nil in Hperm.
Qed.

(** The author search on a state whose [Object.prototype] has no [reviews]. *)
Lemma performAuthorSearch_unpolluted `{StringBuiltins}
    (e : Env) (st : State) (name : string) :
  (random e 0 <= d0_97)%Q -> unpolluted st ->
  performAuthorSearch e st name
  = resolved
      {| search_books :=
           hit <$> array_sort (fun x y => localeCompare (title x.2) (title y.2))
                     (List.filter
                        (fun entry => includes (toLowerCase (author entry.2))
                                               (toLowerCase name))
                        (own_entries (books st)));
         searchTerm := name;
         totalChecked := size (books st) |}.
Proof.
  intros Hd Hclean. apply exceeds_false in Hd. unfold performAuthorSearch.
  rewrite Hd, (author_loop_unpolluted st _ Hclean). unfold author_matches.
  by rewrite (sort_hits_books title hit_title).
Qed.

(** X18. The route of the author search never changes the state and treats
    an empty result as an error. When the draw does not exceed 0.97 and no
    review was written at the id [__proto__], it answers 404 with a count of
    zero if no author of the catalog contains the search string, and
    otherwise 200 with a non-empty list that holds exactly the matching
    books; when the draw exceeds 0.97 it answers 500. *)
Theorem searchByAuthor_outcome `{StringBuiltins}
    (name : string) (e : Env) (st : State) (req : Request) :
  (searchByAuthor name e st req).1 = st /\
  ((random e 0 <= d0_97)%Q -> unpolluted st ->
   ((forall isbn b, books st !! isbn = Some b -> ~ author_contains name b) ->
    (searchByAuthor name e st req).2
    = respond 404
        (NoneFound ("No books found by author " ++ quoted name ++ " using Async/Await")
                   "async-await" name 0)) /\
   ((exists isbn b, books st !! isbn = Some b /\ author_contains name b) ->
    status (searchByAuthor name e st req).2 = 200 /\
    exists hits,
      books_sent (searchByAuthor name e st req).2 = Some hits /\ hits <> [] /\
      forall h, h ∈ hits <->
        exists isbn b, books st !! isbn = Some b /\ author_contains name b /\
                       h = hit (isbn, b))) /\
  (~ (random e 0 <= d0_97)%Q -> status (searchByAuthor name e st req).2 = 500).
Proof.
  split; [apply searchByAuthor_state|]. split.
  - intros Hd Hclean. unfold searchByAuthor.
    rewrite (performAuthorSearch_unpolluted e st name Hd Hclean). cbn [search_books].
    set (keep := fun entry : string * Book =>
                   includes (toLowerCase (author entry.2)) (toLowerCase name)).
    set (cmp := fun x y : string * Book => localeCompare (title x.2) (title y.2)).
    assert (Hmem : forall h,
              h ∈ hit <$> array_sort cmp (List.filter keep (own_entries (books st)))
              <-> exists isbn b, books st !! isbn = Some b /\ author_contains name b /\
                                 h = hit (isbn, b)).
    { intros h. rewrite list_elem_of_fmap. split.
      - intros ([isbn b] & -> & Hin). rewrite (array_sort_perm cmp) in Hin.
        apply elem_of_filter_own_entries in Hin as [Hb Hk]. eauto.
      - intros (isbn & b & Hb & Hc & ->). exists (isbn, b). split; [reflexivity|].
        rewrite (array_sort_perm cmp). by apply elem_of_filter_own_entries. }
    split.
    + intros Hnone. rewrite (filter_own_entries_nil keep) by exact Hnone. reflexivity.
    + intros (isbn & b & Hb & Hc).
      assert (Hin : hit (isbn, b)
                      ∈ hit <$> array_sort cmp (List.filter keep (own_entries (books st))))
        by (apply Hmem; eauto).
      destruct (hit <$> array_sort cmp (List.filter keep (own_entries (books st))))
        as [|h l] eqn:Hl; [inversion Hin|].
      simpl. split; [reflexivity|]. eexists. split; [reflexivity|]. split; [done|].
      exact Hmem.
  - intros Hd. apply exceeds_true in Hd. unfold searchByAuthor, performAuthorSearch.
    by rewrite Hd.
Qed.

Lemma searchByAuthor_outcome_witness :
  (@searchByAuthor Latin1.builtins "Tolkien" (Sample.env (1 # 2)) initial_state
     (Sample.request GET ["author"; "Tolkien"] [] [])).2
  = respond 404
      (NoneFound ("No books found by author " ++ quoted "Tolkien" ++ " using Async/Await")
                 "async-await" "Tolkien" 0).
Proof.
  refine (proj1 (proj1 (proj2 (@searchByAuthor_outcome Latin1.builtins "Tolkien"
            (Sample.env (1 # 2)) initial_state
            (Sample.request GET ["author"; "Tolkien"] [] []))) _ _) _).
  - vm_compute. discriminate.
  - reflexivity.
  - apply (filter_own_entries_nil_inv
             (fun entry : string * Book =>
                includes (Latin1.lowercase (author entry.2)) (Latin1.lowercase "Tolkien"))).
    vm_compute. reflexivity.
Defined.

(** ** Searching by title *)

(** The title search on a state whose [Object.prototype] has no [reviews],
    once its three draws have passed. *)
Lemma titleSearch_unpolluted `{StringBuiltins} (e : Env) (st : State) (name : string) :
  (random e 0 <= d0_98)%Q -> (random e 2 <= d0_97)%Q -> (random e 3 <= d0_99)%Q ->
  unpolluted st ->
  titleSearch e st name
  = resolved
      (hit <$> array_sort (fun x y => localeCompare (author x.2) (author y.2))
                 (List.filter
                    (fun entry => includes (toLowerCase (title entry.2))
                                           (toLowerCase name))
                    (own_entries (books st)))).
Proof.
  intros Hd0 Hd2 Hd3 Hclean. apply exceeds_false in Hd0, Hd2, Hd3.
  unfold titleSearch. rewrite Hd0, Hd2, (title_loop_unpolluted st _ Hclean), Hd3.
  unfold title_matches. by rewrite (sort_hits_books author hit_author).
Qed.



(** The search for "THE " on the seeded catalog: the books 4 and 5 have the
    same author and stay in the order of the enumeration, which visits the
    id 4 before the id 5 and the id 10 last. *)
Example titleSearch_the :
  (fun r => match r with
            | resolved found => Some (hit_isbn <$> found)
            | rejected _ => None
            end)
    (@titleSearch Latin1.builtins (Sample.env (1 # 2)) initial_state "THE ")
  = Some ["3"; "10"; "4"; "5"].
Proof. vm_compute. reflexivity. Qed.

(** X20. The route of the title search never changes the state and treats
    an empty result as an error. When none of its three draws exceeds its
    threshold and no review was written at the id [__proto__], it answers
    404 with a count of zero if no title of the catalog contains the search
    string, and otherwise 200 with a non-empty list that holds exactly the
    matching books; when the search rejects it answers 500 with the error of
    the rejection. *)
Theorem searchByTitle_outcome `{StringBuiltins}
    (name : string) (e : Env) (st : State) (req : Request) :
  (searchByTitle name e st req).1 = st /\
  ((random e 0 <= d0_98)%Q -> (random e 2 <= d0_97)%Q -> (random e 3 <= d0_99)%Q ->
   unpolluted st ->
   ((forall isbn b, books st !! isbn = Some b -> ~ title_contains name b) ->
    (searchByTitle name e st req).2
    = respond 404
        (NoneFound ("No books found with title " ++ quoted name
                      ++ " using Promise Chaining")
                   "promise-chaining" name 0)) /\
   ((exists isbn b, books st !! isbn = Some b /\ title_contains name b) ->
    status (searchByTitle name e st req).2 = 200 /\
    exists hits,
      books_sent (searchByTitle name e st req).2 = Some hits /\ hits <> [] /\
      forall h, h ∈ hits <->
        exists isbn b, books st !! isbn = Some b /\ title_contains name b /\
                       h = hit (isbn, b))) /\
  (forall error, titleSearch e st name = rejected error ->
     (searchByTitle name e st req).2
     = respond 500
         (Failure ("Error searching for books with title " ++ quoted name
                     ++ " using Promise Chaining")
                  "promise-chaining" (Some name) error)).
Proof.
  split; [apply searchByTitle_state|]. split.
  - intros Hd0 Hd2 Hd3 Hclean. unfold searchByTitle.
    rewrite (titleSearch_unpolluted e st name Hd0 Hd2 Hd3 Hclean).
    set (keep := fun entry : string * Book =>
                   includes (toLowerCase (title entry.2)) (toLowerCase name)).
    set (cmp := fun x y : string * Book => localeCompare (author x.2) (author y.2)).
    assert (Hmem : forall h,
              h ∈ hit <$> array_sort cmp (List.filter keep (own_entries (books st)))
              <-> exists isbn b, books st !! isbn = Some b /\ title_contains name b /\
                                 h = hit (isbn, b)).
    { intros h. rewrite list_elem_of_fmap. split.
      - intros ([isbn b] & -> & Hin). rewrite (array_sort_perm cmp) in Hin.
        apply elem_of_filter_own_entries in Hin as [Hb Hk]. eauto.
      - intros (isbn & b & Hb & Hc & ->). exists (isbn, b). split; [reflexivity|].
        rewrite (array_sort_perm cmp). by apply elem_of_filter_own_entries. }
    split.
    + intros Hnone. rewrite (filter_own_entries_nil keep) by exact Hnone. reflexivity.
    + intros (isbn & b & Hb & Hc).
      assert (Hin : hit (isbn, b)
                      ∈ hit <$> array_sort cmp (List.filter keep (own_entries (books st))))
        by (apply Hmem; eauto).
      destruct (hit <$> array_sort cmp (List.filter keep (own_entries (books st))))
        as [|h l] eqn:Hl; [inversion Hin|].
      simpl. split; [reflexivity|]. eexists. split; [reflexivity|]. split; [done|].
      exact Hmem.
  - intros error Herr. unfold searchByTitle. by rewrite Herr.
Qed.

Lemma searchByTitle_outcome_witness :
  (@searchByTitle Latin1.builtins "Hobbit" (Sample.env (1 # 2)) initial_state
     (Sample.request GET ["title"; "Hobbit"] [] [])).2
  = respond 404
      (NoneFound ("No books found with title " ++ quoted "Hobbit"
                    ++ " using Promise Chaining")
                 "promise-chaining" "Hobbit" 0).
Proof.
  refine (proj1 (proj1 (proj2 (@searchByTitle_outcome Latin1.builtins "Hobbit"
            (Sample.env (1 # 2)) initial_state
            (Sample.request GET ["title"; "Hobbit"] [] []))) _ _ _ _) _).
  - vm_compute. discriminate.
  - vm_compute. discriminate.
  - vm_compute. discriminate.
  - reflexivity.
  - apply (filter_own_entries_nil_inv
             (fun entry : string * Book =>
                includes (Latin1.lowercase (title entry.2)) (Latin1.lowercase "Hobbit"))).
    vm_compute. reflexivity.
Defined.

(** ** The searches once [Object.prototype] carries [reviews] *)

(** X27. After a review written at the id [__proto__], the loop over the catalog
    visits the inherited key [reviews] after the own entries and reads
    [Object.prototype.reviews] as a book. While that object has no entry
    [author], the author search that passed its draw rejects with the
    [TypeError] of the call of [toLowerCase] on [undefined], and the route
    answers 500; the same holds of the title search while the object has no
    entry [title]. *)
Theorem searches_reject_on_inherited_key `{StringBuiltins}
    (name : string) (e : Env) (st : State) (req : Request) (r0 : gmap string string) :
  proto_reviews (prototype st) = Some r0 -> books st !! "reviews" = None ->
  ((random e 0 <= d0_97)%Q -> r0 !! "author" = None ->
   searchByAuthor name e st req
   = (st, respond 500
            (Failure ("Error searching for books by author " ++ quoted name
                        ++ " using Async/Await")
                     "async-await" (Some name)
                     "Cannot read properties of undefined (reading 'toLowerCase')"))) /\
  ((random e 0 <= d0_98)%Q -> (random e 2 <= d0_97)%Q -> r0 !! "title" = None ->
   searchByTitle name e st req
   = (st, respond 500
            (Failure ("Error searching for books with title " ++ quoted name
                        ++ " using Promise Chaining")
                     "promise-chaining" (Some name)
                     "Cannot read properties of undefined (reading 'toLowerCase')"))).
Proof.
  intros Hp Hb. split.
  - intros Hd Ha. apply exceeds_false in Hd.
    unfold searchByAuthor, performAuthorSearch, author_loop, inherited_entry.
    by rewrite Hd, Hb, Hp, Ha.
  - intros Hd0 Hd2 Ht. apply exceeds_false in Hd0, Hd2.
    unfold searchByTitle, titleSearch, title_loop, inherited_entry.
    by rewrite Hd0, Hd2, Hb, Hp, Ht.
Qed.

Lemma searches_reject_on_inherited_key_witness :
  status (@app Latin1.builtins (Sample.env (1 # 2))
               (@serve Latin1.builtins Sample.logged_in
                       [(Sample.env (1 # 2), put_review "__proto__" "Loved it")])
               (Sample.request GET ["author"; "Achebe"] [] [])).2 = 500.
Proof.
  set (st := @serve Latin1.builtins Sample.logged_in
               [(Sample.env (1 # 2), put_review "__proto__" "Loved it")]).
  change (status (@searchByAuthor Latin1.builtins "Achebe" (Sample.env (1 # 2)) st
                    (Sample.request GET ["author"; "Achebe"] [] [])).2 = 500).
  rewrite (proj1 (@searches_reject_on_inherited_key Latin1.builtins "Achebe"
                    (Sample.env (1 # 2)) st
                    (Sample.request GET ["author"; "Achebe"] [] [])
                    {[ "alice" := "Loved it" ]} eq_refl eq_refl)
                 ltac:(vm_compute; discriminate) eq_refl).
  reflexivity.
Defined.

(** ** Registration and substrings *)

(** X21. What [register] stores, for a username and a password that are
    texts: the answer is 200 exactly when both are non-empty and the name is
    not yet valid, and then the user array is the former one with one user
    pushed at its end, holding the name and the password as they were sent,
    while the catalog, the sessions and [Object.prototype] are as before. A
    request without one of the two fields is answered 400. *)
Theorem register_outcome (e : Env) (st : State) (req : Request) :
  (forall u p, body req !! "username" = Some u -> body req !! "password" = Some p ->
     (status (register e st req).2 = 200 <->
      u <> "" /\ p <> "" /\ isValid (users st) u = false) /\
     (status (register e st req).2 = 200 ->
      register e st req
      = ({| books := books st;
            users := users st ++ [{| username := u; password := p |}];
            sessions := sessions st;
            prototype := prototype st |},
         respond 200 (Message "User registered successfully. You can now login.")))) /\
  (body req !! "username" = None \/ body req !! "password" = None ->
   register e st req = (st, required_reply)).
Proof.
  split.
  - intros u p Hu Hp. unfold register. rewrite Hu, Hp. unfold is_empty.
    destruct (bool_decide_reflect (u = "")) as [->|Hne].
    { simpl. split; [split; [discriminate|by intros [? _]]|discriminate]. }
    destruct (bool_decide_reflect (p = "")) as [->|Hpe].
    { simpl. split; [split; [discriminate|by intros (_ & ? & _)]|discriminate]. }
    simpl. destruct (isValid (users st) u) eqn:Hv; simpl.
    + split; [split; [discriminate|by intros (_ & _ & ?)]|discriminate].
    + split; [done|]. intros _. reflexivity.
  - unfold register, required_reply.
    intros [Hu|Hp]; [by rewrite Hu|rewrite Hp; by destruct (body req !! "username")].
Qed.

Lemma register_outcome_witness :
  register (Sample.env (1 # 2)) initial_state (Sample.register_alice "pw1")
  = ({| books := seeded_books; users := [Sample.alice]; sessions := ∅;
        prototype := pristine |},
     respond 200 (Message "User registered successfully. You can now login.")).
Proof.
  refine (proj2 (proj1 (register_outcome (Sample.env (1 # 2)) initial_state
                          (Sample.register_alice "pw1")) "alice" "pw1" _ _) _);
    reflexivity.
Defined.

Lemma prefix_app (sub s : string) :
  String.prefix sub s = true <-> exists post, s = sub ++ post.
Proof.
  revert s. induction sub as [|c sub IH]; intros s; simpl.
  - destruct s; split; eauto.
  - destruct s as [|d s]; simpl.
    + split; [discriminate|intros [post Hpost]; discriminate].
    + destruct (ascii_dec c d) as [->|Hne].
      * rewrite IH. split; intros [post Hpost]; exists post.
        -- rewrite Hpost. reflexivity.
        -- change (String d sub ++ post) with (String d (sub ++ post)) in Hpost.
           congruence.
      * split; [discriminate|]. intros [post Hpost].
        change (String c sub ++ post) with (String c (sub ++ post)) in Hpost.
        congruence.
Qed.

(** X22. The substring test of the searches: [includes s sub] holds exactly
    when [s] is some text, then [sub], then some text; in particular every
    string includes the empty string. *)
Theorem includes_substring (s sub : string) :
  (includes s sub = true <-> exists pre post, s = pre ++ sub ++ post) /\
  includes s "" = true.
Proof.
  split; [|by destruct s].
  induction s as [|c s IH]; cbn [includes].
  - rewrite orb_false_r, prefix_app. split.
    + intros [post Hpost]. exists "", post. exact Hpost.
    + intros (pre & post & Heq). destruct pre as [|d pre]; [eauto|].
      change (String d pre ++ sub ++ post) with (String d (pre ++ sub ++ post)) in Heq.
      discriminate.
  - rewrite orb_true_iff, prefix_app, IH. split.
    + intros [[post Hpost]|(pre & post & Heq)].
      * exists "", post. exact Hpost.
      * exists (String c pre), post. rewrite Heq. reflexivity.
    + intros (pre & post & Heq). destruct pre as [|d pre].
      * left. eauto.
      * right. exists pre, post.
        change (String d pre ++ sub ++ post) with (String d (pre ++ sub ++ post)) in Heq.
        congruence.
Qed.

(** ** Ids that are nothing but property names *)

(** X28. An id that is not in the catalog and that [Object.prototype] provides is
    taken for a book by every handler that tests [books[isbn]]: the reviews
    route answers 200, the lookup by id answers 200 when its draw passes, a
    review written there is answered 200 with the review echoed and the
    catalog, the directory and the sessions unchanged, and a deletion there
    is never answered "Book not found". *)
Theorem inherited_ids_are_served
    (isbn : string) (e : Env) (st : State) (req : Request) :
  books st !! isbn = None -> provides (prototype st) isbn = true ->
  status (getReviews isbn e st req).2 = 200 /\
  ((random e 0 <= d0_98)%Q -> status (getByIsbn isbn e st req).2 = 200) /\
  (forall a text,
     sessions st !! session_id req = Some a ->
     query req !! "review" = Some text -> text <> "" ->
     (putReview isbn e st req).2 = saved isbn text (auth_username a) /\
     books (putReview isbn e st req).1 = books st /\
     users (putReview isbn e st req).1 = users st /\
     sessions (putReview isbn e st req).1 = sessions st) /\
  (forall a, sessions st !! session_id req = Some a ->
     (deleteReview isbn e st req).2 <> book_not_found).
Proof.
  intros Hb Hp.
  assert (Hsome : is_Some (lookup_book st isbn))
    by (apply lookup_book_is_Some; by right).
  destruct Hsome as [t Ht]. split; [|split; [|split]].
  - unfold getReviews. rewrite Ht. repeat case_match; reflexivity.
  - intros Hd. apply exceeds_false in Hd.
    unfold getByIsbn, getBookByIsbnPromise. by rewrite Hd, Ht.
  - intros a text Hs Hq Hne.
    split; [|split; [|split;
      [apply putReview_users_eq|apply putReview_sessions_eq]]].
    + unfold putReview. rewrite Hs, Hq, Ht. unfold is_empty.
      rewrite bool_decide_eq_false_2 by done.
      by destruct (ensure_reviews st isbn t).
    + destruct (putReview_effect isbn e st req)
        as [Heq|(a' & b & _ & _ & Hb' & _)]; [exact Heq|congruence].
  - intros a Hs. unfold deleteReview. rewrite Hs, Ht.
    case_match; simpl; discriminate.
Qed.

Lemma inherited_ids_are_served_witness :
  status (getReviews "constructor" (Sample.env (1 # 2)) Sample.logged_in
                     (put_review "constructor" "Loved it")).2 = 200 /\
  (putReview "constructor" (Sample.env (1 # 2)) Sample.logged_in
             (put_review "constructor" "Loved it")).2
  = saved "constructor" "Loved it" "alice".
Proof.
  pose proof (inherited_ids_are_served "constructor" (Sample.env (1 # 2)) Sample.logged_in
                (put_review "constructor" "Loved it") eq_refl eq_refl)
    as (Hget & _ & Hput & _).
  split; [exact Hget|].
  refine (proj1 (Hput Sample.alice_session "Loved it" eq_refl eq_refl _)).
  discriminate.
Defined.

